(** * qbittorrent-operator: the hash extractor, the remote service client
      and the reconciliation controller, embedded from the Go sources

    - [internal/qbittorrent/utils.go]   : [GetTorrentHash]
    - [internal/qbittorrent/client.go]  : [Client], [Login], [GetTorrentsInfo],
      [GetTorrentInfo], [AddTorrent], [DeleteTorrent]
    - [internal/controller]             : [Reconcile], [handleDeletion],
      [reconcile], [setDegradedCondition], [setAvailableCondition],
      [updateTorrentStatus]

    Go strings are byte sequences; they are modelled as [string] (a list of
    8-bit [ascii]).  A Go [(T, error)] result is a pair whose second
    component is an [option error], [None] being [nil]. *)

From Stdlib Require Import ZArith Ascii.
From stdpp Require Import base list strings.

Local Open Scope Z_scope.

(** ** Errors *)

(** Go [error] values.  [errorString] is what [fmt.Errorf] builds without
    [%w]; [wrapError] is [fmt.Errorf(prefix + "%w", err)];  [apiNotFound] is
    the store's "not found" status error, the one [client.IgnoreNotFound]
    recognises. *)
Inductive error : Type :=
  | errorString (msg : string)
  | wrapError (prefix : string) (err : error)
  | apiNotFound (name : string).

(** [err.Error()] *)
Fixpoint Error (e : error) : string :=
  match e with
  | errorString msg => msg
  | wrapError prefix err => prefix +:+ Error err
  | apiNotFound name => "torrents " +:+ name +:+ " not found"
  end.

(** [errors.Unwrap] *)
Definition Unwrap (e : error) : option error :=
  match e with
  | wrapError _ err => Some err
  | _ => None
  end.

(** ** Package [strings] and string slicing *)

Module strings.

(** [strings.HasPrefix(s, prefix)] *)
Fixpoint HasPrefix (s prefix : string) {struct prefix} : bool :=
  match prefix, s with
  | EmptyString, _ => true
  | String a prefix', String b s' => Ascii.eqb a b && HasPrefix s' prefix'
  | String _ _, EmptyString => false
  end.

(** Position of the first instance of [substr] in [s], if any. *)
Fixpoint IndexNat (s substr : string) : option nat :=
  if HasPrefix s substr then Some 0%nat
  else match s with
       | EmptyString => None
       | String _ s' => S <$> IndexNat s' substr
       end.

(** [strings.Index(s, substr)]: the index of the first instance of
    [substr] in [s], or [-1] if [substr] is not present in [s]. *)
Definition Index (s substr : string) : Z :=
  match IndexNat s substr with
  | Some n => Z.of_nat n
  | None => -1
  end.

(** [len(s)] *)
Definition len (s : string) : Z := Z.of_nat (String.length s).

Fixpoint drop (n : nat) (s : string) : string :=
  match n, s with
  | O, _ => s
  | S n', String _ s' => drop n' s'
  | S _, EmptyString => EmptyString
  end.

Fixpoint take (n : nat) (s : string) : string :=
  match n, s with
  | O, _ => EmptyString
  | S n', String a s' => String a (take n' s')
  | S _, EmptyString => EmptyString
  end.

(** [s[lo:]] for [0 <= lo <= len(s)]; Go panics outside that range, and
    [slice_in_range] below is the side condition under which the model
    and Go agree. *)
Definition slice_from (s : string) (lo : Z) : string :=
  drop (Z.to_nat lo) s.

(** [s[lo:hi]] for [0 <= lo <= hi <= len(s)]. *)
Definition slice (s : string) (lo hi : Z) : string :=
  take (Z.to_nat (hi - lo)) (drop (Z.to_nat lo) s).

Definition slice_in_range (s : string) (lo hi : Z) : Prop :=
  0 <= lo /\ lo <= hi /\ hi <= len s.

(** [substr] occurs somewhere in [s]. *)
Definition Contains (s substr : string) : Prop :=
  exists a b : string, s = a +:+ substr +:+ b.

End strings.

(** ** [utils.go] *)

(** [func GetTorrentHash(magnetURI string) (string, error)] *)
Definition GetTorrentHash (magnetURI : string) : string * option error :=
  (* Find the btih: prefix *)
  let btihIndex := strings.Index magnetURI "btih:" in
  if btihIndex =? -1 then
    ("", Some (errorString "'btih:' not found"))
  else
    (* Start after "btih:" *)
    let hashStart := btihIndex + 5 in
    if hashStart >=? strings.len magnetURI then
      ("", Some (errorString "no hash after 'btih:'"))
    else
      (* Find the end of the hash (next & or end of string) *)
      let hashEnd := strings.Index (strings.slice_from magnetURI hashStart) "&" in
      if hashEnd =? -1 then
        (* No & found, hash goes to end of string *)
        (strings.slice_from magnetURI hashStart, None)
      else
        (* Extract hash between btih: and next & *)
        (strings.slice magnetURI hashStart (hashStart + hashEnd), None).

(** ** State passing

    Go methods with pointer receivers and functions that mutate the object
    behind a pointer are written in a state monad over the objects they can
    reach. *)

Definition M (S A : Type) : Type := S -> A * S.

Definition ret {S A} (a : A) : M S A := fun s => (a, s).

Definition bind {S A B} (c : M S A) (k : A -> M S B) : M S B :=
  fun s => let (a, s') := c s in k a s'.

Definition get {S} : M S S := fun s => (s, s).

Definition modify {S} (f : S -> S) : M S unit := fun s => (tt, f s).

(** Run a computation over a component [T] of the state [S]. *)
Definition zoom {S T A} (proj : S -> T) (upd : T -> S -> S) (c : M T A)
  : M S A :=
  fun s => let (a, t') := c (proj s) in (a, upd t' s).

Declare Scope go_scope.
Delimit Scope go_scope with go.
Notation "x <- c ;; k" := (bind c (fun x => k))
  (at level 100, c at next level, right associativity) : go_scope.
Notation "c ;; k" := (bind c (fun _ => k))
  (at level 100, right associativity) : go_scope.
Local Open Scope go_scope.

(** ** Package [net/http] and [net/url]: the part the client uses *)

Module http.

Record Cookie : Type := { Name : string; Value : string }.

(** [url.Values] with string values set once per key. *)
Definition Values : Type := list (string * string).

(** [v.Set(key, value)]: replaces the value of [key]. *)
Fixpoint Set_ (v : Values) (key value : string) : Values :=
  match v with
  | [] => [(key, value)]
  | (k, x) :: v' =>
      if String.eqb k key then (key, value) :: v'
      else (k, x) :: Set_ v' key value
  end.

(** What a request carries: nothing, a URL-encoded form, or the fields
    written to a [multipart.Writer], in the order they were written. *)
Inductive Body : Type :=
  | NoBody
  | FormBody (data : Values)
  | MultipartBody (fields : list (string * string)).

Record Request : Type := {
  Method : string;
  URL : string;
  ContentType : string;
  ReqCookies : list Cookie;
  ReqBody : Body
}.

Record Response : Type := {
  StatusCode : Z;
  Status : string;
  Cookies : list Cookie;      (* resp.Cookies() *)
  RespBody : string
}.

Definition StatusOK : Z := 200.
Definition StatusUnauthorized : Z := 401.

(** [req.AddCookie(c)] *)
Definition AddCookie (req : Request) (c : Cookie) : Request :=
  {| Method := Method req; URL := URL req; ContentType := ContentType req;
     ReqCookies := ReqCookies req ++ [c]; ReqBody := ReqBody req |}.

(** [req.Header.Set("Content-Type", v)] *)
Definition SetContentType (req : Request) (v : string) : Request :=
  {| Method := Method req; URL := URL req; ContentType := v;
     ReqCookies := ReqCookies req; ReqBody := ReqBody req |}.

End http.

(** ** [client.go] *)

Module qbittorrent.

Import http.

(** [type Client struct].  The [httpClient] field is the transport; what
    it answers is the remote service's business and is taken from the
    environment [Remote] below. *)
Record Client : Type := {
  baseURL : string;
  sessionID : string          (* SID obtained from login *)
}.

(** [type TorrentInfo struct] *)
Record TorrentInfo : Type := {
  AddedOn : Z;
  AmountLeft : Z;
  ContentPath : string;
  Hash : string;
  MagnetURI : string;
  Name : string;
  Size : Z;
  State : string;
  TotalSize : Z;
  TimeActive : Z
}.

(** What lies outside the client: URL parsing inside [http.NewRequest],
    the transport with the remote service behind it (its answer may
    depend on the requests it has already received), the JSON decoder and
    the multipart writer. *)
Record Remote : Type := {
  ParseURL : string -> option error;
  RoundTrip : list Request -> Request -> Response + error;
  DecodeTorrents : string -> list TorrentInfo + error;
  CreateFormFieldErr : option error
}.

(** The objects a client method can reach: the client itself (pointer
    receiver) and the wire, recorded as the requests handed to the
    transport, oldest first. *)
Record Conn : Type := {
  self : Client;
  sent : list Request
}.

Definition set_self (c : Client) (s : Conn) : Conn :=
  {| self := c; sent := sent s |}.

(** [strings.TrimSuffix(s, "/")] *)
Fixpoint TrimSuffixSlash (s : string) : string :=
  match s with
  | EmptyString => EmptyString
  | String a EmptyString => if Ascii.eqb a "/" then EmptyString else s
  | String a s' => String a (TrimSuffixSlash s')
  end.

(** [func NewClient(baseURL string) *Client] *)
Definition NewClient (baseURL : string) : Client :=
  {| baseURL := TrimSuffixSlash baseURL; sessionID := "" |}.

Section Methods.

Variable remote : Remote.

(** [http.NewRequest(method, url, body)] *)
Definition NewRequest (method url : string) (body : Body)
  : Request * option error :=
  ({| Method := method; URL := url; ContentType := "";
      ReqCookies := []; ReqBody := body |},
   ParseURL remote url).

(** [c.httpClient.Do(req)] *)
Definition Do (req : Request) : M Conn (Response + error) :=
  fun s => (RoundTrip remote (sent s) req,
            {| self := self s; sent := sent s ++ [req] |}).

(** [c.httpClient.PostForm(url, data)] *)
Definition PostForm (url : string) (data : Values)
  : M Conn (Response + error) :=
  let (req, err) := NewRequest "POST" url (FormBody data) in
  match err with
  | Some err => ret (inr err)
  | None => Do (SetContentType req "application/x-www-form-urlencoded")
  end.

(** [c.sessionID = v] *)
Definition set_sessionID (v : string) : M Conn unit :=
  modify (fun s =>
    set_self {| baseURL := baseURL (self s); sessionID := v |} s).

(** The loop of [Login]:
    [for _, cookie := range resp.Cookies() {
       if cookie.Name == "SID" { c.sessionID = cookie.Value; break } }] *)
Fixpoint Login_cookies (cookies : list Cookie) : M Conn unit :=
  match cookies with
  | [] => ret tt
  | cookie :: rest =>
      if String.eqb (http.Name cookie) "SID"
      then set_sessionID (Value cookie)
      else Login_cookies rest
  end.

(** [func (c *Client) Login(ctx, username, password string) error] *)
Definition Login (username password : string) : M Conn (option error) :=
  c <- get ;;
  let loginURL := baseURL (self c) +:+ "/api/v2/auth/login" in
  let loginData := Set_ (Set_ [] "username" username) "password" password in
  r <- PostForm loginURL loginData ;;
  match r with
  | inr err =>
      ret (Some (wrapError "failed to login to qbittorrent: " err))
  | inl resp =>
      (* check for non-200 status code *)
      if negb (StatusCode resp =? StatusOK) then
        ret (Some (errorString
               ("failed to login to qbittorrent. Status: " +:+ Status resp)))
      else
        (* Get the session ID from the response *)
        Login_cookies (Cookies resp) ;;
        c <- get ;;
        if String.eqb (sessionID (self c)) "" then
          ret (Some (errorString
                 "failed to get session ID from qbittorrent response"))
        else ret None
  end.

(** [func (c *Client) GetTorrentsInfo(ctx) ([]TorrentInfo, error)] *)
Definition GetTorrentsInfo : M Conn (list TorrentInfo * option error) :=
  c <- get ;;
  let torrentsInfoURL := baseURL (self c) +:+ "/api/v2/torrents/info" in
  (* Add the session ID to the request *)
  let (req, err) := NewRequest "GET" torrentsInfoURL NoBody in
  match err with
  | Some err => ret ([], Some (wrapError "failed to create request: " err))
  | None =>
      let req := AddCookie req
                   {| http.Name := "SID"; Value := sessionID (self c) |} in
      r <- Do req ;;
      match r with
      | inr err =>
          ret ([], Some (wrapError "failed to get torrents info list: " err))
      | inl resp =>
          (* check for non-200 status code *)
          if negb (StatusCode resp =? StatusOK) then
            (* check if the error is 401 Unauthorized *)
            if StatusCode resp =? StatusUnauthorized then
              ret ([], Some (errorString "unauthorized access to qbittorrent"))
            else
              ret ([], Some (errorString
                     ("failed to get torrents info list. Status: "
                      +:+ Status resp)))
          else
            (* Parse the response body *)
            match DecodeTorrents remote (RespBody resp) with
            | inr err =>
                ret ([], Some (wrapError
                       "failed to parse torrents info list: " err))
            | inl torrentsInfo => ret (torrentsInfo, None)
            end
      end
  end.

(** The loop of [GetTorrentInfo]:
    [for _, torrent := range torrentsInfo {
       if torrent.Hash == hash { return &torrent, nil } }] *)
Fixpoint GetTorrentInfo_scan (torrentsInfo : list TorrentInfo)
    (hash : string) : option TorrentInfo :=
  match torrentsInfo with
  | [] => None
  | torrent :: rest =>
      if String.eqb (Hash torrent) hash then Some torrent
      else GetTorrentInfo_scan rest hash
  end.

(** [func (c *Client) GetTorrentInfo(ctx, hash string)], returning a
    pointer to a [TorrentInfo] and an [error]; a [nil] pointer is [None]. *)
Definition GetTorrentInfo (hash : string)
  : M Conn (option TorrentInfo * option error) :=
  r <- GetTorrentsInfo ;;
  let (torrentsInfo, err) := r in
  match err with
  | Some err =>
      ret (None, Some (wrapError "failed to get torrents info list: " err))
  | None =>
      match GetTorrentInfo_scan torrentsInfo hash with
      | Some torrent => ret (Some torrent, None)
      | None => ret (None, None)
      end
  end.

(** [func (c *Client) AddTorrent(ctx, magnetURI string) error] *)
Definition AddTorrent (magnetURI : string) : M Conn (option error) :=
  c <- get ;;
  let torrentsAddURL := baseURL (self c) +:+ "/api/v2/torrents/add" in
  (* writer.WriteField("urls", magnetURI) *)
  let body := [("urls", magnetURI)] in
  match CreateFormFieldErr remote with
  | Some err => ret (Some (wrapError "failed to create form field: " err))
  | None =>
      (* urlFields.Write([]byte(magnetURI)) *)
      let body := body ++ [("urls", magnetURI)] in
      let (req, err) := NewRequest "POST" torrentsAddURL (MultipartBody body) in
      match err with
      | Some err => ret (Some (wrapError "failed to create request: " err))
      | None =>
          let req := SetContentType req "multipart/form-data" in
          let req := AddCookie req
                       {| http.Name := "SID"; Value := sessionID (self c) |} in
          r <- Do req ;;
          match r with
          | inr err => ret (Some (wrapError "failed to add torrent: " err))
          | inl resp =>
              (* check for non-200 status code *)
              if negb (StatusCode resp =? StatusOK) then
                (* check if the error is 401 Unauthorized *)
                if StatusCode resp =? StatusUnauthorized then
                  ret (Some (errorString "unauthorized access to qbittorrent"))
                else
                  ret (Some (errorString
                         ("failed to add torrent. Status: " +:+ Status resp)))
              else ret None
          end
      end
  end.

(** [fmt.Sprintf("%t", b)] *)
Definition Sprintf_t (b : bool) : string := if b then "true" else "false".

(** [func (c *Client) DeleteTorrent(ctx, hash string, deleteFiles bool) error] *)
Definition DeleteTorrent (hash : string) (deleteFiles : bool)
  : M Conn (option error) :=
  c <- get ;;
  let torrentsDeleteURL := baseURL (self c) +:+ "/api/v2/torrents/delete" in
  (* Prepare URL-encoded form data *)
  let data := Set_ (Set_ [] "hashes" hash) "deleteFiles" (Sprintf_t deleteFiles) in
  let (req, err) := NewRequest "POST" torrentsDeleteURL (FormBody data) in
  match err with
  | Some err => ret (Some (wrapError "failed to create request: " err))
  | None =>
      let req := SetContentType req "application/x-www-form-urlencoded" in
      let req := AddCookie req
                   {| http.Name := "SID"; Value := sessionID (self c) |} in
      r <- Do req ;;
      match r with
      | inr err => ret (Some (wrapError "failed to delete torrent: " err))
      | inl resp =>
          if negb (StatusCode resp =? StatusOK) then
            if StatusCode resp =? StatusUnauthorized then
              ret (Some (errorString "unauthorized access to qbittorrent"))
            else
              ret (Some (errorString
                     ("failed to delete torrent. Status: " +:+ Status resp)))
          else ret None
      end
  end.

End Methods.

End qbittorrent.

(** ** [k8s.io/apimachinery]: times, conditions, object metadata *)

Module metav1.

(** [metav1.Time], counted in nanoseconds from Go's zero instant. *)
Definition Time : Type := Z.

(** [t.IsZero()] *)
Definition IsZero (t : Time) : bool := t =? 0.

(** [IsZero] on a pointer to a [Time]: a [nil] pointer is zero as well. *)
Definition IsZeroPtr (t : option Time) : bool :=
  match t with
  | None => true
  | Some t => IsZero t
  end.

(** [metav1.ConditionStatus] *)
Inductive ConditionStatus : Type :=
  | ConditionTrue
  | ConditionFalse
  | ConditionUnknown.

Definition ConditionStatus_eqb (a b : ConditionStatus) : bool :=
  match a, b with
  | ConditionTrue, ConditionTrue
  | ConditionFalse, ConditionFalse
  | ConditionUnknown, ConditionUnknown => true
  | _, _ => false
  end.

(** [metav1.Condition] *)
Record Condition : Type := {
  Type_ : string;
  Status : ConditionStatus;
  ObservedGeneration : Z;
  LastTransitionTime : Time;
  Reason : string;
  Message : string
}.

(** The fields of [metav1.ObjectMeta] the controller reads or writes. *)
Record ObjectMeta : Type := {
  Name : string;
  DeletionTimestamp : option Time;
  Finalizers : list string
}.

End metav1.

(** ** [k8s.io/apimachinery/pkg/api/meta]: condition helpers *)

Module meta.

Import metav1.

(** [meta.FindStatusCondition]: the first condition of that type. *)
Fixpoint FindStatusCondition (conditions : list Condition)
    (conditionType : string) : option Condition :=
  match conditions with
  | [] => None
  | c :: rest =>
      if String.eqb (Type_ c) conditionType then Some c
      else FindStatusCondition rest conditionType
  end.

(** The in-place update [meta.SetStatusCondition] applies to the existing
    condition it found. *)
Definition merge (now : Time) (existing new : Condition) : Condition :=
  let changed := negb (ConditionStatus_eqb (Status existing) (Status new)) in
  {| Type_ := Type_ existing;
     Status := Status new;
     ObservedGeneration := ObservedGeneration new;
     LastTransitionTime :=
       if changed then
         if negb (IsZero (LastTransitionTime new))
         then LastTransitionTime new else now
       else LastTransitionTime existing;
     Reason := Reason new;
     Message := Message new |}.

(** Apply [f] to the first condition of type [conditionType]. *)
Fixpoint update_first (conditions : list Condition) (conditionType : string)
    (f : Condition -> Condition) : list Condition :=
  match conditions with
  | [] => []
  | c :: rest =>
      if String.eqb (Type_ c) conditionType then f c :: rest
      else c :: update_first rest conditionType f
  end.

(** [meta.SetStatusCondition(&conditions, newCondition)]: append when no
    condition of that type exists (stamping the time if it is zero),
    otherwise update the first one in place; [LastTransitionTime] moves
    only when [Status] changes.  [now] is [time.Now()]. *)
Definition SetStatusCondition (now : Time) (conditions : list Condition)
    (newCondition : Condition) : list Condition :=
  match FindStatusCondition conditions (Type_ newCondition) with
  | None =>
      let newCondition :=
        if IsZero (LastTransitionTime newCondition) then
          {| Type_ := Type_ newCondition;
             Status := Status newCondition;
             ObservedGeneration := ObservedGeneration newCondition;
             LastTransitionTime := now;
             Reason := Reason newCondition;
             Message := Message newCondition |}
        else newCondition in
      conditions ++ [newCondition]
  | Some _ =>
      update_first conditions (Type_ newCondition)
        (fun existing => merge now existing newCondition)
  end.

(** [meta.RemoveStatusCondition(&conditions, conditionType)]: keeps the
    conditions of every other type, in order. *)
Fixpoint RemoveStatusCondition (conditions : list Condition)
    (conditionType : string) : list Condition :=
  match conditions with
  | [] => []
  | condition :: rest =>
      if negb (String.eqb (Type_ condition) conditionType)
      then condition :: RemoveStatusCondition rest conditionType
      else RemoveStatusCondition rest conditionType
  end.

(** [meta.IsStatusConditionTrue] *)
Definition IsStatusConditionTrue (conditions : list Condition)
    (conditionType : string) : bool :=
  match FindStatusCondition conditions conditionType with
  | Some c => ConditionStatus_eqb (Status c) ConditionTrue
  | None => false
  end.

End meta.

(** ** [api/v1alpha1]: the tracked resource *)

Module v1alpha1.

(** [type TorrentSpec struct] *)
Record TorrentSpec : Type := { MagnetURI : string }.

(** [type TorrentStatus struct] *)
Record TorrentStatus : Type := {
  ContentPath : string;
  AddedOn : Z;
  State : string;
  TotalSize : Z;
  Name : string;
  TimeActive : Z;
  AmountLeft : Z;
  Hash : string;
  Conditions : list metav1.Condition
}.

(** [type Torrent struct] *)
Record Torrent : Type := {
  ObjectMeta : metav1.ObjectMeta;
  Spec : TorrentSpec;
  Status : TorrentStatus
}.

(** [Torrent{}] *)
Definition zero : Torrent :=
  {| ObjectMeta := {| metav1.Name := ""; metav1.DeletionTimestamp := None;
                      metav1.Finalizers := [] |};
     Spec := {| MagnetURI := "" |};
     Status := {| ContentPath := ""; AddedOn := 0; State := "";
                  TotalSize := 0; Name := ""; TimeActive := 0;
                  AmountLeft := 0; Hash := ""; Conditions := [] |} |}.

Definition with_Status (st : TorrentStatus) (t : Torrent) : Torrent :=
  {| ObjectMeta := ObjectMeta t; Spec := Spec t; Status := st |}.

Definition with_Finalizers (f : list string) (t : Torrent) : Torrent :=
  {| ObjectMeta := {| metav1.Name := metav1.Name (ObjectMeta t);
                      metav1.DeletionTimestamp :=
                        metav1.DeletionTimestamp (ObjectMeta t);
                      metav1.Finalizers := f |};
     Spec := Spec t; Status := Status t |}.

Definition with_Conditions (c : list metav1.Condition) (t : Torrent)
  : Torrent :=
  with_Status
    {| ContentPath := ContentPath (Status t); AddedOn := AddedOn (Status t);
       State := State (Status t); TotalSize := TotalSize (Status t);
       Name := Name (Status t); TimeActive := TimeActive (Status t);
       AmountLeft := AmountLeft (Status t); Hash := Hash (Status t);
       Conditions := c |} t.

(** [t.GetFinalizers()] *)
Definition GetFinalizers (t : Torrent) : list string :=
  metav1.Finalizers (ObjectMeta t).

End v1alpha1.

(** ** [controller-runtime/pkg/controller/controllerutil] *)

Module controllerutil.

Import v1alpha1.

(** [controllerutil.ContainsFinalizer(o, finalizer)] *)
Fixpoint contains (f : list string) (finalizer : string) : bool :=
  match f with
  | [] => false
  | e :: rest => if String.eqb e finalizer then true else contains rest finalizer
  end.

Definition ContainsFinalizer (o : Torrent) (finalizer : string) : bool :=
  contains (GetFinalizers o) finalizer.

(** [controllerutil.AddFinalizer(o, finalizer)]: appends unless present. *)
Definition AddFinalizer (o : Torrent) (finalizer : string) : Torrent :=
  let f := GetFinalizers o in
  if contains f finalizer then o
  else with_Finalizers (f ++ [finalizer]) o.

(** The compaction loop of [controllerutil.RemoveFinalizer]. *)
Fixpoint remove (f : list string) (finalizer : string) : list string :=
  match f with
  | [] => []
  | e :: rest =>
      if String.eqb e finalizer then remove rest finalizer
      else e :: remove rest finalizer
  end.

(** [controllerutil.RemoveFinalizer(o, finalizer)] *)
Definition RemoveFinalizer (o : Torrent) (finalizer : string) : Torrent :=
  with_Finalizers (remove (GetFinalizers o) finalizer) o.

End controllerutil.

(** ** [internal/controller]: the reconciler *)

Module controller.

Import metav1 v1alpha1.

(** Condition types for Torrent status *)
Definition TypeAvailableTorrent : string := "Available".
Definition TypeDegradedTorrent : string := "Degraded".

(** Finalizer name for cleanup *)
Definition TorrentFinalizer : string := "torrent.qbittorrent.io/finalizer".

(** [time.Second], a [time.Duration] in nanoseconds *)
Definition Second : Z := 1000000000.

(** [ctrl.Result] *)
Record Result : Type := { Requeue : bool; RequeueAfter : Z }.

(** [ctrl.Result{}] *)
Definition Result0 : Result := {| Requeue := false; RequeueAfter := 0 |}.

(** [ctrl.Result{RequeueAfter: d}] *)
Definition After (d : Z) : Result := {| Requeue := false; RequeueAfter := d |}.

(** [apierrors.IsNotFound(err)], which looks through wrapped errors *)
Fixpoint IsNotFound (err : error) : bool :=
  match err with
  | apiNotFound _ => true
  | wrapError _ err' => IsNotFound err'
  | errorString _ => false
  end.

(** [client.IgnoreNotFound(err)] *)
Definition IgnoreNotFound (err : error) : option error :=
  if IsNotFound err then None else Some err.

(** What lies outside one reconciliation pass: the remote service behind
    the client, the store's failures (a read failure other than
    not-found; the verdict on the n-th write, given the object written)
    and the successive readings of [time.Now()]. *)
Record Runtime : Type := {
  remote : qbittorrent.Remote;
  GetErr : option error;
  WriteErr : nat -> Torrent -> option error;
  Now : nat -> Time
}.

(** The objects a pass can reach: the client behind [r.QBTClient] with
    its wire, the object behind the pass's [torrent] pointer, the copy of
    the resource held by the runtime's store ([None]: no such resource),
    and the number of store writes attempted so far. *)
Record World : Type := {
  qbt : qbittorrent.Conn;
  obj : Torrent;
  stored : option Torrent;
  nwrites : nat
}.

Definition set_qbt (c : qbittorrent.Conn) (w : World) : World :=
  {| qbt := c; obj := obj w; stored := stored w; nwrites := nwrites w |}.

Definition set_obj (t : Torrent) (w : World) : World :=
  {| qbt := qbt w; obj := t; stored := stored w; nwrites := nwrites w |}.

(** A call through [r.QBTClient]. *)
Definition QBT {A} (c : M qbittorrent.Conn A) : M World A :=
  zoom qbt set_qbt c.

Section Pass.

Variable rt : Runtime.

(** [r.Get(ctx, req.NamespacedName, torrent)]: fills the object behind
    [torrent] from the store. *)
Definition Get (req : string) : M World (option error) :=
  fun w =>
    match GetErr rt with
    | Some err => (Some err, w)
    | None =>
        match stored w with
        | None => (Some (apiNotFound req), w)
        | Some t => (None, set_obj t w)
        end
    end.

(** [r.Update(ctx, torrent)]: writes metadata and spec.  The resource
    has a status subresource, so the stored status is left alone; on
    success the object behind [torrent] is refreshed from the store's
    answer. *)
Definition Update : M World (option error) :=
  fun w =>
    let n := nwrites w in
    match WriteErr rt n (obj w) with
    | Some err =>
        (Some err, {| qbt := qbt w; obj := obj w; stored := stored w;
                      nwrites := S n |})
    | None =>
        match stored w with
        | None =>
            (Some (apiNotFound (metav1.Name (ObjectMeta (obj w)))),
             {| qbt := qbt w; obj := obj w; stored := stored w;
                nwrites := S n |})
        | Some old =>
            let new := with_Status (Status old) (obj w) in
            (None, {| qbt := qbt w; obj := new; stored := Some new;
                      nwrites := S n |})
        end
    end.

(** [r.Status().Update(ctx, torrent)]: writes the status only. *)
Definition StatusUpdate : M World (option error) :=
  fun w =>
    let n := nwrites w in
    match WriteErr rt n (obj w) with
    | Some err =>
        (Some err, {| qbt := qbt w; obj := obj w; stored := stored w;
                      nwrites := S n |})
    | None =>
        match stored w with
        | None =>
            (Some (apiNotFound (metav1.Name (ObjectMeta (obj w)))),
             {| qbt := qbt w; obj := obj w; stored := stored w;
                nwrites := S n |})
        | Some old =>
            let new := with_Status (Status (obj w)) old in
            (None, {| qbt := qbt w; obj := new; stored := Some new;
                      nwrites := S n |})
        end
    end.

(** The object behind the [torrent] pointer *)
Definition torrent : M World Torrent := fun w => (obj w, w).

Definition modify_torrent (f : Torrent -> Torrent) : M World unit :=
  modify (fun w => set_obj (f (obj w)) w).

Definition modify_status (f : TorrentStatus -> TorrentStatus)
  : M World unit :=
  modify_torrent (fun t => with_Status (f (Status t)) t).

(** set the Degraded condition to True *)
Definition setDegradedCondition (reason message : string) : M World unit :=
  let condition :=
    {| Type_ := TypeDegradedTorrent;
       metav1.Status := ConditionTrue;
       ObservedGeneration := 0;
       Reason := reason;
       Message := message;
       LastTransitionTime := Now rt 0 |} in
  modify_torrent (fun t =>
    with_Conditions
      (meta.SetStatusCondition (Now rt 1) (Conditions (Status t)) condition) t) ;;
  (* Remove available condition if it exists *)
  modify_torrent (fun t =>
    with_Conditions
      (meta.RemoveStatusCondition (Conditions (Status t)) TypeAvailableTorrent) t).

(** set the Available condition to True *)
Definition setAvailableCondition (reason message : string) : M World unit :=
  let condition :=
    {| Type_ := TypeAvailableTorrent;
       metav1.Status := ConditionTrue;
       ObservedGeneration := 0;
       Reason := reason;
       Message := message;
       LastTransitionTime := Now rt 0 |} in
  modify_torrent (fun t =>
    with_Conditions
      (meta.SetStatusCondition (Now rt 1) (Conditions (Status t)) condition) t) ;;
  (* Remove degraded condition if it exists *)
  modify_torrent (fun t =>
    with_Conditions
      (meta.RemoveStatusCondition (Conditions (Status t)) TypeDegradedTorrent) t).

(** One [if torrent.Status.F != qbTorrent.F { torrent.Status.F = ...;
    updated = true }] step of [updateTorrentStatus]. *)
Definition sync_field (differs : TorrentStatus -> bool)
    (assign : TorrentStatus -> TorrentStatus) (updated : bool)
  : M World bool :=
  t <- torrent ;;
  if differs (Status t) then modify_status assign ;; ret true
  else ret updated.

(** updateTorrentStatus updates the torrent status from qBittorrent data *)
Definition updateTorrentStatus (qbTorrent : qbittorrent.TorrentInfo)
  : M World bool :=
  let updated := false in
  (* Compare and update each field *)
  updated <- sync_field
    (fun st => negb (String.eqb (Hash st) (qbittorrent.Hash qbTorrent)))
    (fun st =>
       {| ContentPath := ContentPath st; AddedOn := AddedOn st;
          State := State st; TotalSize := TotalSize st; Name := Name st;
          TimeActive := TimeActive st; AmountLeft := AmountLeft st;
          Hash := qbittorrent.Hash qbTorrent;
          Conditions := Conditions st |}) updated ;;
  updated <- sync_field
    (fun st => negb (String.eqb (Name st) (qbittorrent.Name qbTorrent)))
    (fun st =>
       {| ContentPath := ContentPath st; AddedOn := AddedOn st;
          State := State st; TotalSize := TotalSize st;
          Name := qbittorrent.Name qbTorrent;
          TimeActive := TimeActive st; AmountLeft := AmountLeft st;
          Hash := Hash st; Conditions := Conditions st |}) updated ;;
  updated <- sync_field
    (fun st => negb (String.eqb (State st) (qbittorrent.State qbTorrent)))
    (fun st =>
       {| ContentPath := ContentPath st; AddedOn := AddedOn st;
          State := qbittorrent.State qbTorrent;
          TotalSize := TotalSize st; Name := Name st;
          TimeActive := TimeActive st; AmountLeft := AmountLeft st;
          Hash := Hash st; Conditions := Conditions st |}) updated ;;
  updated <- sync_field
    (fun st => negb (TotalSize st =? qbittorrent.TotalSize qbTorrent))
    (fun st =>
       {| ContentPath := ContentPath st; AddedOn := AddedOn st;
          State := State st;
          TotalSize := qbittorrent.TotalSize qbTorrent; Name := Name st;
          TimeActive := TimeActive st; AmountLeft := AmountLeft st;
          Hash := Hash st; Conditions := Conditions st |}) updated ;;
  updated <- sync_field
    (fun st => negb (String.eqb (ContentPath st)
                       (qbittorrent.ContentPath qbTorrent)))
    (fun st =>
       {| ContentPath := qbittorrent.ContentPath qbTorrent;
          AddedOn := AddedOn st; State := State st;
          TotalSize := TotalSize st; Name := Name st;
          TimeActive := TimeActive st; AmountLeft := AmountLeft st;
          Hash := Hash st; Conditions := Conditions st |}) updated ;;
  updated <- sync_field
    (fun st => negb (AddedOn st =? qbittorrent.AddedOn qbTorrent))
    (fun st =>
       {| ContentPath := ContentPath st;
          AddedOn := qbittorrent.AddedOn qbTorrent; State := State st;
          TotalSize := TotalSize st; Name := Name st;
          TimeActive := TimeActive st; AmountLeft := AmountLeft st;
          Hash := Hash st; Conditions := Conditions st |}) updated ;;
  updated <- sync_field
    (fun st => negb (TimeActive st =? qbittorrent.TimeActive qbTorrent))
    (fun st =>
       {| ContentPath := ContentPath st; AddedOn := AddedOn st;
          State := State st; TotalSize := TotalSize st; Name := Name st;
          TimeActive := qbittorrent.TimeActive qbTorrent;
          AmountLeft := AmountLeft st;
          Hash := Hash st; Conditions := Conditions st |}) updated ;;
  updated <- sync_field
    (fun st => negb (AmountLeft st =? qbittorrent.AmountLeft qbTorrent))
    (fun st =>
       {| ContentPath := ContentPath st; AddedOn := AddedOn st;
          State := State st; TotalSize := TotalSize st; Name := Name st;
          TimeActive := TimeActive st;
          AmountLeft := qbittorrent.AmountLeft qbTorrent;
          Hash := Hash st; Conditions := Conditions st |}) updated ;;
  ret updated.

(** The tail of [handleDeletion]: remove the finalizer from the Torrent
    Resource so that kubernetes can delete the resource. *)
Definition removeFinalizer : M World (Result * option error) :=
  modify_torrent (fun t =>
    controllerutil.RemoveFinalizer t TorrentFinalizer) ;;
  err <- Update ;;
  match err with
  | Some err => ret (Result0, Some err)
  | None => ret (Result0, None)
  end.

(** [func (r *TorrentReconciler) handleDeletion(ctx, torrent)] *)
Definition handleDeletion : M World (Result * option error) :=
  t <- torrent ;;
  (* Step 2.2: Delete the Torrent Resource from qBittorrent *)
  if negb (String.eqb (Hash (Status t)) "") then
    (* Delete the Torrent Resource from qBittorrent and delete the
       files by default *)
    err <- QBT (qbittorrent.DeleteTorrent (remote rt)
                  (Hash (Status t)) true) ;;
    match err with
    | Some err =>
        (* Update resource status to reflect the error *)
        setDegradedCondition "FailedToDeleteTorrent" (Error err) ;;
        _ <- StatusUpdate ;;
        (* Retry after 10 seconds *)
        ret (After (10 * Second), None)
    | None => removeFinalizer
    end
  else removeFinalizer.

(** [func (r *TorrentReconciler) reconcile(ctx, torrent)] *)
Definition reconcile : M World (Result * option error) :=
  t <- torrent ;;
  let (hash, err) := GetTorrentHash (MagnetURI (Spec t)) in
  match err with
  | Some err => ret (Result0, Some err)
  | None =>
      (* Step 4.1: Check if the Torrent Resource exists in qBittorrent *)
      r <- QBT (qbittorrent.GetTorrentInfo (remote rt) hash) ;;
      let (torrentInfo, err) := r in
      match err with
      | Some err =>
          (* Update resource status to reflect the error *)
          setDegradedCondition "FailedToGetTorrentInfo" (Error err) ;;
          _ <- StatusUpdate ;;
          (* Retry after 10 seconds *)
          ret (After (10 * Second), None)
      | None =>
          (* Step 4.2: Check if the Torrent Resource exists in qBittorrent *)
          match torrentInfo with
          | None =>
              (* Add the Torrent Resource to qBittorrent *)
              err <- QBT (qbittorrent.AddTorrent (remote rt)
                            (MagnetURI (Spec t))) ;;
              match err with
              | Some err =>
                  (* Update resource status to reflect the error *)
                  setDegradedCondition "FailedToAddTorrent" (Error err) ;;
                  _ <- StatusUpdate ;;
                  (* Retry after 10 seconds *)
                  ret (After (10 * Second), None)
              | None =>
                  (* Step 4.3: Update status reflecting the torrent info
                     and set the available condition *)
                  setAvailableCondition "TorrentAdded"
                    "Torrent added to qBittorrent" ;;
                  _ <- StatusUpdate ;;
                  ret (After (5 * Second), None)
              end
          | Some torrentInfo =>
              (* Step 4.3: Update status reflecting the torrent info *)
              updated <- updateTorrentStatus torrentInfo ;;
              err <- (if updated then StatusUpdate else ret None) ;;
              match err with
              | Some err => ret (Result0, Some err)
              | None =>
                  (* Step 4.4: Set success condition *)
                  setAvailableCondition "TorrentActive"
                    "Torrent is active on qBittorrent" ;;
                  _ <- StatusUpdate ;;
                  (* Step 4.5: Return success and requeue after 30 seconds *)
                  ret (After (30 * Second), None)
              end
          end
      end
  end.

(** [func (r *TorrentReconciler) Reconcile(ctx, req)] *)
Definition Reconcile (req : string) : M World (Result * option error) :=
  (* Step 1: Get the Torrent Resource *)
  modify (set_obj zero) ;;
  err <- Get req ;;
  match err with
  | Some err => ret (Result0, IgnoreNotFound err)
  | None =>
      t <- torrent ;;
      (* Step 2: Check if the Torrent Resource is marked for deletion *)
      if negb (IsZeroPtr (DeletionTimestamp (ObjectMeta t))) then
        (* Step 2.1: Delete the Torrent Resource from qBittorrent *)
        handleDeletion
      (* Step 3: Add Finalizer to the Torrent Resource *)
      else if negb (controllerutil.ContainsFinalizer t TorrentFinalizer) then
        modify_torrent (fun t =>
          controllerutil.AddFinalizer t TorrentFinalizer) ;;
        err <- Update ;;
        match err with
        | Some err => ret (Result0, Some err)
        | None => ret (After (1 * Second), None)
        end
      else
        (* Step 4: Execute the Reconciliation logic *)
        reconcile
  end.

End Pass.

End controller.

(** ** Vocabulary of the properties *)

Module props.

Import metav1 v1alpha1 controller.

(** Some condition of type [ty] has status [True]. *)
Definition holds_true (conditions : list Condition) (ty : string) : Prop :=
  exists c, c ∈ conditions /\ Type_ c = ty /\ metav1.Status c = ConditionTrue.

(** Not both Available=True and Degraded=True. *)
Definition exclusive (conditions : list Condition) : Prop :=
  ~ (holds_true conditions TypeAvailableTorrent
     /\ holds_true conditions TypeDegradedTorrent).

(** No condition of type [ty] at all. *)
Definition absent (conditions : list Condition) (ty : string) : Prop :=
  forall c, c ∈ conditions -> Type_ c <> ty.

(** The resource carries the finalizer token. *)
Definition has_finalizer (t : Torrent) : Prop :=
  TorrentFinalizer ∈ GetFinalizers t.

(** The resource carries a deletion marker. *)
Definition marked (t : Torrent) : Prop :=
  IsZeroPtr (DeletionTimestamp (ObjectMeta t)) = false.

(** Every observed field equals the remote record's. *)
Definition fields_match (st : TorrentStatus) (r : qbittorrent.TorrentInfo)
  : Prop :=
  Hash st = qbittorrent.Hash r /\ Name st = qbittorrent.Name r
  /\ State st = qbittorrent.State r
  /\ TotalSize st = qbittorrent.TotalSize r
  /\ ContentPath st = qbittorrent.ContentPath r
  /\ AddedOn st = qbittorrent.AddedOn r
  /\ TimeActive st = qbittorrent.TimeActive r
  /\ AmountLeft st = qbittorrent.AmountLeft r.

(** [fields_match], decided. *)
Definition fields_eqb (st : TorrentStatus) (r : qbittorrent.TorrentInfo)
  : bool :=
  String.eqb (Hash st) (qbittorrent.Hash r)
  && String.eqb (Name st) (qbittorrent.Name r)
  && String.eqb (State st) (qbittorrent.State r)
  && (TotalSize st =? qbittorrent.TotalSize r)
  && String.eqb (ContentPath st) (qbittorrent.ContentPath r)
  && (AddedOn st =? qbittorrent.AddedOn r)
  && (TimeActive st =? qbittorrent.TimeActive r)
  && (AmountLeft st =? qbittorrent.AmountLeft r).

(** The observed fields overwritten with the remote record's; the
    conditions kept. *)
Definition synced (st : TorrentStatus) (r : qbittorrent.TorrentInfo)
  : TorrentStatus :=
  {| ContentPath := qbittorrent.ContentPath r;
     AddedOn := qbittorrent.AddedOn r;
     State := qbittorrent.State r;
     TotalSize := qbittorrent.TotalSize r;
     Name := qbittorrent.Name r;
     TimeActive := qbittorrent.TimeActive r;
     AmountLeft := qbittorrent.AmountLeft r;
     Hash := qbittorrent.Hash r;
     Conditions := Conditions st |}.

(** The world a pass works in once it has fetched [t] from the store. *)
Definition fetched (t : Torrent) (w : World) : World := set_obj t w.

(** The condition values the two setters build. *)
Definition DegradedCondition (rt : Runtime) (reason message : string)
  : Condition :=
  {| Type_ := TypeDegradedTorrent; metav1.Status := ConditionTrue;
     ObservedGeneration := 0; LastTransitionTime := Now rt 0;
     Reason := reason; Message := message |}.

Definition AvailableCondition (rt : Runtime) (reason message : string)
  : Condition :=
  {| Type_ := TypeAvailableTorrent; metav1.Status := ConditionTrue;
     ObservedGeneration := 0; LastTransitionTime := Now rt 0;
     Reason := reason; Message := message |}.

(** The object after [setDegradedCondition], after [setAvailableCondition]. *)
Definition degraded (rt : Runtime) (reason message : string) (t : Torrent)
  : Torrent :=
  with_Conditions
    (meta.RemoveStatusCondition
       (meta.SetStatusCondition (Now rt 1) (Conditions (Status t))
          (DegradedCondition rt reason message))
       TypeAvailableTorrent) t.

Definition available (rt : Runtime) (reason message : string) (t : Torrent)
  : Torrent :=
  with_Conditions
    (meta.RemoveStatusCondition
       (meta.SetStatusCondition (Now rt 1) (Conditions (Status t))
          (AvailableCondition rt reason message))
       TypeDegradedTorrent) t.

(** The world after a store write that failed, and after one that stored
    [new]. *)
Definition bump (w : World) : World :=
  {| qbt := qbt w; obj := obj w; stored := stored w;
     nwrites := S (nwrites w) |}.

Definition written (new : Torrent) (w : World) : World :=
  {| qbt := qbt w; obj := new; stored := Some new;
     nwrites := S (nwrites w) |}.

(** The world after a status write of [t'] whose error, if any, is only
    logged. *)
Definition persist_logged (rt : Runtime) (t' : Torrent) (w : World) : World :=
  match WriteErr rt (nwrites w) t' with
  | Some _ => bump (set_obj t' w)
  | None => written t' w
  end.

(** The worlds a resource's store can be in: the resource is created
    without conditions (the status subresource is empty at creation); the
    controller runs a pass; or someone else acts on the store (the runtime
    sets the deletion marker, a user edits the spec, the resource is removed
    or created anew) without writing conditions of their own. *)
Inductive reachable : World -> Prop :=
  | reach_created (w : World) :
      (forall t, stored w = Some t -> Conditions (Status t) = []) ->
      reachable w
  | reach_pass (rt : Runtime) (req : string) (w : World) :
      reachable w -> reachable (snd (Reconcile rt req w))
  | reach_others (w w' : World) :
      reachable w ->
      (forall t', stored w' = Some t' ->
                  Conditions (Status t') = []
                  \/ exists t, stored w = Some t
                               /\ Conditions (Status t') = Conditions (Status t)) ->
      reachable w'.

End props.


(** ** Concrete clients, remotes and resources *)

Module examples.

Import http qbittorrent.

(** A remote service that answers every request with the same status and
    cookies, and whose list decodes to [torrents]. *)
Definition answering (code : Z) (status : string) (cookies : list Cookie)
    (torrents : list TorrentInfo) : Remote :=
  {| ParseURL := fun _ => None;
     RoundTrip := fun _ _ =>
       inl {| StatusCode := code; Status := status; Cookies := cookies;
              RespBody := "" |};
     DecodeTorrents := fun _ => inl torrents;
     CreateFormFieldErr := None |}.

(** A remote service that cannot be reached. *)
Definition unreachable : Remote :=
  {| ParseURL := fun _ => None;
     RoundTrip := fun _ _ => inr (errorString "connection refused");
     DecodeTorrents := fun _ => inl [];
     CreateFormFieldErr := None |}.

Definition record (hash name state : string) : TorrentInfo :=
  {| AddedOn := 1700000000; AmountLeft := 0; ContentPath := "/downloads";
     Hash := hash; MagnetURI := ""; Name := name; Size := 42;
     State := state; TotalSize := 42; TimeActive := 7 |}.

(** A client at [http://qbt:8080] with session token [sid], nothing sent. *)
Definition conn (sid : string) : Conn :=
  {| self := {| baseURL := "http://qbt:8080"; sessionID := sid |};
     sent := [] |}.

(** The request [Login] sends for [admin]/[secret]. *)
Definition login_request : Request :=
  {| Method := "POST"; URL := "http://qbt:8080/api/v2/auth/login";
     ContentType := "application/x-www-form-urlencoded";
     ReqCookies := [];
     ReqBody := FormBody [("username", "admin"); ("password", "secret")] |}.

Import metav1 v1alpha1 controller.

(** A runtime whose store reads succeed, whose store writes all fail or
    all succeed, and whose clock reads [1000], [1001], ... *)
Definition runtime (remote : Remote) (writes_fail : bool) : Runtime :=
  {| remote := remote;
     GetErr := None;
     WriteErr := fun _ _ =>
       if writes_fail then Some (errorString "etcdserver: request timed out")
       else None;
     Now := fun n => 1000 + Z.of_nat n |}.

(** A resource for [magnet:?xt=urn:btih:ABC123&dn=test]. *)
Definition resource (deletion : option Time) (finalizers : list string)
    (hash state : string) (conditions : list Condition) : Torrent :=
  {| ObjectMeta := {| metav1.Name := "t1"; DeletionTimestamp := deletion;
                      Finalizers := finalizers |};
     Spec := {| v1alpha1.MagnetURI := "magnet:?xt=urn:btih:ABC123&dn=test" |};
     Status := {| v1alpha1.ContentPath := "/downloads";
                  v1alpha1.AddedOn := 1700000000;
                  v1alpha1.State := state;
                  v1alpha1.TotalSize := 42;
                  v1alpha1.Name := "test";
                  v1alpha1.TimeActive := 7;
                  v1alpha1.AmountLeft := 0;
                  v1alpha1.Hash := hash;
                  Conditions := conditions |} |}.

(** The same resource as the store holds it right after the finalizer was
    added: nothing observed yet. *)
Definition created : Torrent :=
  {| ObjectMeta := {| metav1.Name := "t1"; DeletionTimestamp := None;
                      Finalizers := [TorrentFinalizer] |};
     Spec := {| v1alpha1.MagnetURI := "magnet:?xt=urn:btih:ABC123&dn=test" |};
     Status := Status zero |}.

(** Just created, no finalizer yet; settled on the remote record
    [record "ABC123" "test" "downloading"]; and marked for deletion with
    its hash observed. *)
Definition newborn : Torrent := resource None [] "" "" [].

Definition settled : Torrent :=
  resource None [TorrentFinalizer] "ABC123" "downloading" [].

Definition doomed : Torrent :=
  resource (Some 5) [TorrentFinalizer] "ABC123" "downloading" [].

(** A world whose store holds [t] and whose client is logged in. *)
Definition world (t : Torrent) : World :=
  {| qbt := conn "SID0"; obj := zero; stored := Some t; nwrites := 0 |}.

End examples.

(** ** The requests on the wire, and what a pass may change *)

Module wire.

Import http qbittorrent.

(** The session cookie every authenticated call attaches. *)
Definition SID (c : Client) : Cookie :=
  {| http.Name := "SID"; Value := sessionID c |}.

(** GET [/api/v2/torrents/info] *)
Definition list_request (c : Client) : Request :=
  {| Method := "GET"; URL := baseURL c +:+ "/api/v2/torrents/info";
     ContentType := ""; ReqCookies := [SID c]; ReqBody := NoBody |}.

(** POST [/api/v2/torrents/add], the magnet URI in two [urls] fields *)
Definition add_request (c : Client) (magnetURI : string) : Request :=
  {| Method := "POST"; URL := baseURL c +:+ "/api/v2/torrents/add";
     ContentType := "multipart/form-data"; ReqCookies := [SID c];
     ReqBody := MultipartBody [("urls", magnetURI); ("urls", magnetURI)] |}.

(** POST [/api/v2/torrents/delete] *)
Definition delete_request (c : Client) (hash : string) (deleteFiles : bool)
  : Request :=
  {| Method := "POST"; URL := baseURL c +:+ "/api/v2/torrents/delete";
     ContentType := "application/x-www-form-urlencoded";
     ReqCookies := [SID c];
     ReqBody := FormBody [("hashes", hash);
                          ("deleteFiles", if deleteFiles then "true" else "false")] |}.

(** POST [/api/v2/auth/login], no cookie *)
Definition login_request (c : Client) (username password : string) : Request :=
  {| Method := "POST"; URL := baseURL c +:+ "/api/v2/auth/login";
     ContentType := "application/x-www-form-urlencoded"; ReqCookies := [];
     ReqBody := FormBody [("username", username); ("password", password)] |}.

Import v1alpha1.

(** The observed fields of a status, conditions apart. *)
Definition observed (st : TorrentStatus)
  : string * string * string * Z * string * Z * Z * Z :=
  (Hash st, Name st, State st, TotalSize st, ContentPath st, AddedOn st,
   TimeActive st, AmountLeft st).

(** No condition yet, or a single one: Available or Degraded, with status
    True. *)
Definition single_verdict (conditions : list metav1.Condition) : Prop :=
  conditions = []
  \/ exists c, conditions = [c]
               /\ metav1.Status c = metav1.ConditionTrue
               /\ (metav1.Type_ c = controller.TypeAvailableTorrent
                   \/ metav1.Type_ c = controller.TypeDegradedTorrent).

(** The fixed delays a pass may ask for. *)
Definition delays : list Z :=
  [0; 1 * controller.Second; 5 * controller.Second; 10 * controller.Second;
   30 * controller.Second].

End wire.

(** ** Further concrete resources *)

Module cases.

Import metav1 v1alpha1 controller examples.

(** A resource with the finalizer whose magnet URI has no ["btih:"]. *)
Definition garbled : Torrent :=
  {| ObjectMeta := {| metav1.Name := "t2"; DeletionTimestamp := None;
                      Finalizers := [TorrentFinalizer] |};
     Spec := {| MagnetURI := "magnet:?xt=urn:sha1:ABC123" |};
     Status := Status zero |}.

(** A resource marked for deletion that another controller guards too. *)
Definition guarded : Torrent :=
  resource (Some 5) ["other.io/guard"; TorrentFinalizer] "ABC123"
    "downloading" [].

(** The remote record of [settled], now uploading. *)
Definition uploading : qbittorrent.TorrentInfo :=
  record "ABC123" "test" "uploading".

(** A world whose object already holds Available=True since time [900]. *)
Definition added_earlier : World :=
  set_obj
    (resource None [TorrentFinalizer] "" ""
       [{| Type_ := "Available"; metav1.Status := ConditionTrue;
           ObservedGeneration := 0; LastTransitionTime := 900;
           Reason := "TorrentAdded";
           Message := "Torrent added to qBittorrent" |}])
    (world (resource None [TorrentFinalizer] "" "" [])).

(** Runtimes whose store accepts every write: the remote service answers
    200 and lists [l]; the remote service cannot be reached. *)
Definition online (l : list qbittorrent.TorrentInfo) : Runtime :=
  runtime (answering 200 "200 OK" [] l) false.

Definition offline : Runtime := runtime unreachable false.

(** A world whose store holds nothing. *)
Definition vacant : World :=
  {| qbt := conn "SID0"; obj := zero; stored := None; nwrites := 0 |}.

(** A login answer with a stray cookie and two session cookies. *)
Definition welcome : http.Response :=
  {| http.StatusCode := 200; http.Status := "200 OK";
     http.Cookies := [{| http.Name := "lang"; http.Value := "en" |};
                      {| http.Name := "SID"; http.Value := "s3cr3t" |};
                      {| http.Name := "SID"; http.Value := "later" |}];
     http.RespBody := "" |}.

End cases.
(** * Properties *)

(** ** The hash extractor *)

Section StringFacts.

Import strings.

Local Arguments String.append !_ _ : simpl nomatch.

Lemma HasPrefix_app (m r : string) : HasPrefix (m +:+ r) m = true.
Proof.
  induction m as [|a m IH]; simpl; [done|].
  by rewrite Ascii.eqb_refl, IH.
Qed.

Lemma HasPrefix_split (s m : string) :
  HasPrefix s m = true -> exists r, s = m +:+ r.
Proof.
  revert s. induction m as [|a m IH]; intros s H.
  - by exists s.
  - destruct s as [|b s]; simpl in H; [done|].
    apply andb_prop in H as [Hab Hs].
    apply Ascii.eqb_eq in Hab as ->.
    destruct (IH _ Hs) as [r ->]. by exists r.
Qed.

Lemma app_assoc_s (a b c : string) : (a +:+ b) +:+ c = a +:+ b +:+ c.
Proof. induction a as [|x a IH]; simpl; [done|]. by rewrite IH. Qed.

Lemma length_app_s (a b : string) :
  String.length (a +:+ b) = (String.length a + String.length b)%nat.
Proof. induction a as [|x a IH]; simpl; [done|]. by rewrite IH. Qed.

Lemma drop_app (a b : string) : drop (String.length a) (a +:+ b) = b.
Proof. induction a as [|x a IH]; simpl; done. Qed.

Lemma take_app (a b : string) : take (String.length a) (a +:+ b) = a.
Proof. induction a as [|x a IH]; simpl; [by destruct b|]. by rewrite IH. Qed.

Lemma HasPrefix_cons (a b : ascii) (s m : string) :
  HasPrefix (String b s) (String a m) = Ascii.eqb a b && HasPrefix s m.
Proof. reflexivity. Qed.

Lemma IndexNat_cons (x : ascii) (s m : string) :
  IndexNat (String x s) m
  = if HasPrefix (String x s) m then Some 0%nat else S <$> IndexNat s m.
Proof. reflexivity. Qed.

Lemma IndexNat_here (s m : string) :
  HasPrefix s m = true -> IndexNat s m = Some 0%nat.
Proof. intros H. destruct s; simpl; by rewrite H. Qed.

(** [IndexNat] finds an occurrence. *)
Lemma IndexNat_Some (s m : string) (n : nat) :
  IndexNat s m = Some n ->
  exists a b, s = a +:+ m +:+ b /\ String.length a = n.
Proof.
  revert n. induction s as [|x s IH]; intros n; simpl.
  - destruct (HasPrefix "" m) eqn:Hp; [|done].
    intros [= <-]. destruct (HasPrefix_split _ _ Hp) as [r Hr].
    by exists "", r.
  - destruct (HasPrefix (String x s) m) eqn:Hp.
    + intros [= <-]. destruct (HasPrefix_split _ _ Hp) as [r Hr].
      by exists "", r.
    + destruct (IndexNat s m) as [k|] eqn:Hk; [|done].
      intros [= <-]. destruct (IH k eq_refl) as (a & b & -> & <-).
      by exists (String x a), b.
Qed.

Lemma IndexNat_None (s m : string) :
  IndexNat s m = None <-> ~ Contains s m.
Proof.
  split.
  - intros Hn (a & b & ->). revert Hn.
    induction a as [|x a IH]; simpl.
    + by rewrite (IndexNat_here _ _ (HasPrefix_app m b)).
    + destruct (HasPrefix _ m); [done|].
      destruct (IndexNat (a +:+ m +:+ b) m); [done|]. auto.
  - intros Hc. destruct (IndexNat s m) as [n|] eqn:Hn; [|done].
    destruct Hc. apply IndexNat_Some in Hn as (a & b & -> & _).
    by exists a, b.
Qed.

(** Decision of [Contains] on closed strings goes through [IndexNat]. *)
Lemma not_Contains_by_IndexNat (s m : string) :
  IndexNat s m = None -> ~ Contains s m.
Proof. apply IndexNat_None. Qed.

(** A string free of ["&"] followed by ["&"]: the first ["&"] is
    right after it. *)
Lemma IndexNat_amp (h r : string) :
  ~ Contains h "&" -> IndexNat (h +:+ "&" +:+ r) "&" = Some (String.length h).
Proof.
  induction h as [|x h IH]; intros Hc; [done|].
  change (String x h +:+ "&" +:+ r) with (String x (h +:+ "&" +:+ r)).
  rewrite IndexNat_cons, IH.
  - rewrite HasPrefix_cons.
    destruct (Ascii.eqb "&" x) eqn:E; [|done].
    apply Ascii.eqb_eq in E as <-. destruct Hc. by exists "", h.
  - intros (a & b & ->). apply Hc. by exists (String x a), b.
Qed.

(** The marker has no proper border, so in front of a marker-free prefix
    the first marker is the one written. *)
Lemma IndexNat_btih (p r : string) :
  ~ Contains p "btih:" ->
  IndexNat (p +:+ "btih:" +:+ r) "btih:" = Some (String.length p).
Proof.
  induction p as [|x p IH]; intros Hc; [done|].
  assert (Hp : ~ Contains p "btih:").
  { intros (a & b & ->). apply Hc. by exists (String x a), b. }
  specialize (IH Hp).
  change (String x p +:+ "btih:" +:+ r) with (String x (p +:+ "btih:" +:+ r)).
  rewrite IndexNat_cons, IH.
  destruct (HasPrefix (String x (p +:+ "btih:" +:+ r)) "btih:") eqn:Hpre;
    [exfalso|done].
  rewrite HasPrefix_cons in Hpre.
  destruct (Ascii.eqb "b" x) eqn:E; [apply Ascii.eqb_eq in E as <-|done].
  destruct p as [|x1 p]; [done|].
  change (String x1 p +:+ "btih:" +:+ r)
    with (String x1 (p +:+ "btih:" +:+ r)) in Hpre.
  rewrite HasPrefix_cons in Hpre.
  destruct (Ascii.eqb "t" x1) eqn:E; [apply Ascii.eqb_eq in E as <-|done].
  destruct p as [|x2 p]; [done|].
  change (String x2 p +:+ "btih:" +:+ r)
    with (String x2 (p +:+ "btih:" +:+ r)) in Hpre.
  rewrite HasPrefix_cons in Hpre.
  destruct (Ascii.eqb "i" x2) eqn:E; [apply Ascii.eqb_eq in E as <-|done].
  destruct p as [|x3 p]; [done|].
  change (String x3 p +:+ "btih:" +:+ r)
    with (String x3 (p +:+ "btih:" +:+ r)) in Hpre.
  rewrite HasPrefix_cons in Hpre.
  destruct (Ascii.eqb "h" x3) eqn:E; [apply Ascii.eqb_eq in E as <-|done].
  destruct p as [|x4 p]; [done|].
  change (String x4 p +:+ "btih:" +:+ r)
    with (String x4 (p +:+ "btih:" +:+ r)) in Hpre.
  rewrite HasPrefix_cons in Hpre.
  destruct (Ascii.eqb ":" x4) eqn:E; [apply Ascii.eqb_eq in E as <-|done].
  apply Hc. by exists "", p.
Qed.

End StringFacts.

Section HashExtractor.

Import strings.

Local Arguments String.append !_ _ : simpl nomatch.

(** The scenarios of the specification. *)
Example GetTorrentHash_scenario :
  GetTorrentHash "magnet:?xt=urn:btih:ABC123&dn=test" = ("ABC123", None).
Proof. reflexivity. Qed.

Example GetTorrentHash_to_end :
  GetTorrentHash "magnet:?xt=urn:btih:ABC123" = ("ABC123", None).
Proof. reflexivity. Qed.

Example GetTorrentHash_no_marker :
  GetTorrentHash "magnet:?xt=urn:sha1:ABC123"
  = ("", Some (errorString "'btih:' not found")).
Proof. reflexivity. Qed.

Example GetTorrentHash_marker_last :
  GetTorrentHash "magnet:?xt=urn:btih:"
  = ("", Some (errorString "no hash after 'btih:'")).
Proof. reflexivity. Qed.

Example GetTorrentHash_empty_hash :
  GetTorrentHash "magnet:?xt=urn:btih:&dn=test" = ("", None).
Proof. reflexivity. Qed.

(** After a marker-free prefix and the marker, extraction looks at
    what follows the marker and nothing else. *)
Lemma GetTorrentHash_after_marker (p rest : string) :
  ~ Contains p "btih:" ->
  GetTorrentHash (p +:+ "btih:" +:+ rest)
  = if String.eqb rest "" then ("", Some (errorString "no hash after 'btih:'"))
    else match IndexNat rest "&" with
         | None => (rest, None)
         | Some n => (take n rest, None)
         end.
Proof.
  intros Hp. unfold GetTorrentHash, Index, slice_from, slice, len.
  rewrite (IndexNat_btih p rest Hp).
  assert (Hstart : Z.to_nat (Z.of_nat (String.length p) + 5)
                   = String.length (p +:+ "btih:")).
  { rewrite length_app_s. simpl. lia. }
  rewrite Hstart, <- (app_assoc_s p "btih:" rest), drop_app.
  destruct (Z.eqb_spec (Z.of_nat (String.length p)) (-1)) as [E|_]; [lia|].
  rewrite !length_app_s. simpl String.length.
  destruct rest as [|c rest].
  - simpl. destruct (Z.geb_spec (Z.of_nat (String.length p) + 5)
                       (Z.of_nat (String.length p + 5 + 0))); [done|lia].
  - change (String.eqb (String c rest) "") with false. cbv iota.
    destruct (Z.geb_spec (Z.of_nat (String.length p) + 5)
                (Z.of_nat (String.length p + 5 + String.length (String c rest))))
      as [Hge|_]; [simpl in Hge; lia|].
    destruct (IndexNat (String c rest) "&") as [n|]; [|done].
    destruct (Z.eqb_spec (Z.of_nat n) (-1)) as [E|_]; [lia|].
    do 2 f_equal. f_equal. lia.
Qed.

(** The slices [GetTorrentHash] takes are within the string, so Go does
    not panic where the model slices. *)
Lemma GetTorrentHash_in_range (magnetURI : string) :
  let hashStart := Index magnetURI "btih:" + 5 in
  let hashEnd := Index (slice_from magnetURI hashStart) "&" in
  Index magnetURI "btih:" <> -1 ->
  hashStart < len magnetURI ->
  slice_in_range magnetURI hashStart (len magnetURI)
  /\ (hashEnd <> -1 ->
      slice_in_range magnetURI hashStart (hashStart + hashEnd)).
Proof.
  cbv zeta. unfold slice_from, slice_in_range, len.
  assert (HI : Index magnetURI "btih:"
               = match IndexNat magnetURI "btih:" with
                 | Some n => Z.of_nat n | None => -1 end) by done.
  rewrite !HI. clear HI.
  destruct (IndexNat magnetURI "btih:") as [n|] eqn:Hn; [|done].
  intros _ Hlt. split; [lia|].
  apply IndexNat_Some in Hn as (a & b & -> & <-).
  replace (Z.to_nat (Z.of_nat (String.length a) + 5))
    with (String.length (a +:+ "btih:"))
    by (rewrite length_app_s; simpl; lia).
  rewrite <- (app_assoc_s a "btih:" b), drop_app.
  unfold Index. destruct (IndexNat b "&") as [k|] eqn:Hk; [|done].
  intros _. apply IndexNat_Some in Hk as (h & r & -> & <-).
  rewrite !length_app_s. simpl. lia.
Qed.

(** C3, as amended.  For a prefix that does not itself contain the
    marker ["btih:"] and a hash [H] that contains no ["&"]: extraction
    from [prefix + "btih:" + H + "&" + suffix] returns exactly [H]; from
    [prefix + "btih:" + H] with [H] non-empty it returns [H]; from
    [prefix + "btih:"] (marker last) and from [prefix] alone (marker
    absent) it returns an error.  [H] is otherwise arbitrary: neither its
    length nor its characters are checked. *)
Theorem GetTorrentHash_extracts (prefix H suffix : string) :
  ~ Contains prefix "btih:" ->
  ~ Contains H "&" ->
  GetTorrentHash (prefix +:+ "btih:" +:+ H +:+ "&" +:+ suffix) = (H, None)
  /\ (H <> "" -> GetTorrentHash (prefix +:+ "btih:" +:+ H) = (H, None))
  /\ (exists err, GetTorrentHash (prefix +:+ "btih:") = ("", Some err))
  /\ (exists err, GetTorrentHash prefix = ("", Some err)).
Proof.
  intros Hp HH. repeat split.
  - rewrite (GetTorrentHash_after_marker _ _ Hp), (IndexNat_amp _ _ HH).
    rewrite take_app. by destruct H.
  - intros Hne. rewrite (GetTorrentHash_after_marker _ _ Hp).
    apply IndexNat_None in HH. rewrite HH. by destruct H.
  - eexists. change "btih:" with ("btih:" +:+ "").
    by rewrite (GetTorrentHash_after_marker _ _ Hp).
  - eexists. unfold GetTorrentHash, Index.
    apply IndexNat_None in Hp. by rewrite Hp.
Qed.

Lemma GetTorrentHash_extracts_witness :
  GetTorrentHash ("magnet:?xt=urn:" +:+ "btih:" +:+ "ABC123" +:+ "&" +:+ "dn=test")
  = ("ABC123", None)
  /\ ("ABC123" <> "" ->
      GetTorrentHash ("magnet:?xt=urn:" +:+ "btih:" +:+ "ABC123") = ("ABC123", None))
  /\ (exists err, GetTorrentHash ("magnet:?xt=urn:" +:+ "btih:") = ("", Some err))
  /\ (exists err, GetTorrentHash "magnet:?xt=urn:" = ("", Some err)).
Proof.
  apply (GetTorrentHash_extracts "magnet:?xt=urn:" "ABC123" "dn=test");
    apply not_Contains_by_IndexNat; reflexivity.
Defined.

(** C3 as stated fails: with [H] holding an ["&"] the result stops at
    the first ["&"]; with a marker inside the prefix the result starts
    after that earlier marker; and a marker at the very end is no error
    when an earlier marker exists. *)
Lemma GetTorrentHash_form_counterexample :
  GetTorrentHash ("magnet:?xt=urn:" +:+ "btih:" +:+ "ABC&dn=x" +:+ "&" +:+ "tr=y")
  = ("ABC", None)
  /\ GetTorrentHash ("x=btih:0&y=" +:+ "btih:" +:+ "ABC" +:+ "&" +:+ "tr=y")
     = ("0", None)
  /\ GetTorrentHash ("btih:x" +:+ "btih:") = ("xbtih:", None)
  /\ ~ (forall prefix H suffix : string,
          GetTorrentHash (prefix +:+ "btih:" +:+ H +:+ "&" +:+ suffix)
          = (H, None)).
Proof.
  split; [reflexivity|split; [reflexivity|split; [reflexivity|]]].
  intros Hall. specialize (Hall "magnet:?xt=urn:" "ABC&dn=x" "tr=y").
  vm_compute in Hall. discriminate Hall.
Qed.

End HashExtractor.

(** ** The remote service client *)

Section ClientFacts.

Import http qbittorrent.

Variable remote : Remote.

(** Unfold the monadic plumbing of the client methods. *)
Ltac run_client :=
  unfold Login, GetTorrentInfo, GetTorrentsInfo, AddTorrent, DeleteTorrent,
    PostForm, Do, NewRequest, set_sessionID, set_self, SetContentType,
    AddCookie,
    bind, ret, get, modify;
  simpl.

(** The scan returns a record exactly when it is the first one, in list
    order, whose hash is the queried one. *)
Lemma GetTorrentInfo_scan_Some (l : list TorrentInfo) (hash : string)
    (r : TorrentInfo) :
  GetTorrentInfo_scan l hash = Some r <->
  exists i, l !! i = Some r /\ Hash r = hash
            /\ forall j r', (j < i)%nat -> l !! j = Some r' -> Hash r' <> hash.
Proof.
  induction l as [|x l IH]; simpl.
  - split; [done|]. by intros (i & ? & _).
  - destruct (String.eqb_spec (Hash x) hash) as [Hx|Hx].
    + split.
      * intros [= <-]. exists 0%nat. split_and!; [done..|]. lia.
      * intros ([|i] & Hi & Hr & Hmin); [by injection Hi as ->|].
        destruct (Hmin 0%nat x); [lia|done..].
    + rewrite IH. split.
      * intros (i & Hi & Hr & Hmin). exists (S i). split_and!; [done..|].
        intros [|j] r' Hj Hl; [by injection Hl as <-|].
        apply (Hmin j); [lia|done].
      * intros ([|i] & Hi & Hr & Hmin); [injection Hi as ->; done|].
        exists i. split_and!; [done..|].
        intros j r' Hj Hl. apply (Hmin (S j)); [lia|done].
Qed.

Lemma GetTorrentInfo_scan_None (l : list TorrentInfo) (hash : string) :
  GetTorrentInfo_scan l hash = None <->
  forall r, r ∈ l -> Hash r <> hash.
Proof.
  induction l as [|x l IH]; simpl.
  - split; [|done]. intros _ r Hr. by apply not_elem_of_nil in Hr.
  - destruct (String.eqb_spec (Hash x) hash) as [Hx|Hx].
    + split; [done|]. intros H. destruct (H x); [left|done].
    + rewrite IH. split.
      * intros H r [->|Hr]%elem_of_cons; auto.
      * intros H r Hr. apply H. by right.
Qed.

(** [GetTorrentInfo] is the scan over what [GetTorrentsInfo] returned,
    or its error, wrapped. *)
Lemma GetTorrentInfo_unfold (hash : string) (s : Conn) :
  GetTorrentInfo remote hash s
  = match GetTorrentsInfo remote s with
    | ((l, None), s') => ((GetTorrentInfo_scan l hash, None), s')
    | ((_, Some err), s') =>
        ((None, Some (wrapError "failed to get torrents info list: " err)), s')
    end.
Proof.
  unfold GetTorrentInfo, bind, ret.
  destruct (GetTorrentsInfo remote s) as [[l [err|]] s']; [done|].
  by destruct (GetTorrentInfo_scan l hash).
Qed.

(** C7.  Given what ListTorrents returned: when it succeeded and no
    record of the list has the queried hash, GetTorrent returns a null
    result and no error; and GetTorrent returns an error exactly when
    ListTorrents failed, the error being ListTorrents' error, wrapped. *)
Theorem GetTorrentInfo_absent_is_no_error (hash : string) (s : Conn)
    (l : list TorrentInfo) (listErr : option error) :
  fst (GetTorrentsInfo remote s) = (l, listErr) ->
  (listErr = None -> (forall r, r ∈ l -> Hash r <> hash) ->
   fst (GetTorrentInfo remote hash s) = (None, None))
  /\ (forall err,
        snd (fst (GetTorrentInfo remote hash s)) = Some err <->
        exists e, listErr = Some e
                  /\ err = wrapError "failed to get torrents info list: " e
                  /\ Unwrap err = Some e).
Proof.
  intros Hl. rewrite GetTorrentInfo_unfold.
  destruct (GetTorrentsInfo remote s) as [[l' e'] s']. simpl in Hl.
  injection Hl as -> ->. split.
  - intros -> Habs. simpl. by apply GetTorrentInfo_scan_None in Habs as ->.
  - intros err. destruct listErr as [e|]; simpl.
    + split; [intros [= <-]; by exists e|]. by intros (e0 & [= <-] & -> & _).
    + split; [done|]. by intros (e0 & ? & _).
Qed.

(** C10.  Given a successful ListTorrents result [l]: GetTorrent returns
    the record [r] exactly when [r] sits at the lowest index of [l] whose
    record has the queried hash, whatever matches follow it. *)
Theorem GetTorrentInfo_first_match (hash : string) (s : Conn)
    (l : list TorrentInfo) (r : TorrentInfo) :
  fst (GetTorrentsInfo remote s) = (l, None) ->
  fst (GetTorrentInfo remote hash s) = (Some r, None) <->
  exists i, l !! i = Some r /\ Hash r = hash
            /\ forall j r', (j < i)%nat -> l !! j = Some r' -> Hash r' <> hash.
Proof.
  intros Hl. rewrite GetTorrentInfo_unfold.
  destruct (GetTorrentsInfo remote s) as [[l' e'] s']. simpl in Hl.
  injection Hl as -> ->. simpl. rewrite <- GetTorrentInfo_scan_Some.
  split; [by intros [= ->]|by intros ->].
Qed.

Lemma Login_cookies_baseURL (cookies : list Cookie) (s : Conn) :
  baseURL (self (snd (Login_cookies cookies s))) = baseURL (self s).
Proof.
  induction cookies as [|c cs IH]; simpl; [done|].
  by destruct (String.eqb _ _).
Qed.

(** C9.  ListTorrents, GetTorrent, AddTorrent and DeleteTorrent leave the
    client (base URL and session token) as it was, whatever the outcome;
    Login leaves the base URL as it was. *)
Theorem client_frame (s : Conn) (hash magnetURI username password : string)
    (deleteFiles : bool) :
  self (snd (GetTorrentsInfo remote s)) = self s
  /\ self (snd (GetTorrentInfo remote hash s)) = self s
  /\ self (snd (AddTorrent remote magnetURI s)) = self s
  /\ self (snd (DeleteTorrent remote hash deleteFiles s)) = self s
  /\ baseURL (self (snd (Login remote username password s))) = baseURL (self s).
Proof.
  assert (Hlist : self (snd (GetTorrentsInfo remote s)) = self s).
  { run_client. repeat case_match; done. }
  split_and!.
  - done.
  - rewrite GetTorrentInfo_unfold.
    destruct (GetTorrentsInfo remote s) as [[l [e|]] s']; done.
  - run_client. repeat case_match; done.
  - run_client. repeat case_match; done.
  - clear Hlist. run_client.
    destruct (ParseURL remote _); [done|]. simpl.
    destruct (RoundTrip remote _ _) as [resp|]; [|done].
    destruct (negb _); [done|].
    match goal with
    | |- context [Login_cookies ?cs ?s0] =>
        pose proof (Login_cookies_baseURL cs s0) as Hc;
        destruct (Login_cookies cs s0) as [[] s1]
    end.
    simpl in *. by destruct (String.eqb _ _).
Qed.

(** *** Login *)

Lemma Login_cookies_no_SID (cookies : list Cookie) (s : Conn) :
  (forall c, c ∈ cookies -> http.Name c <> "SID") ->
  Login_cookies cookies s = (tt, s).
Proof.
  induction cookies as [|c cs IH]; intros Hno; simpl; [done|].
  destruct (String.eqb_spec (http.Name c) "SID") as [Hc|_].
  - destruct (Hno c); [left|done].
  - apply IH. intros c' Hc'. apply Hno. by right.
Qed.

(** The first cookie named [SID], if any. *)
Lemma Login_cookies_first_SID (cookies : list Cookie) (s : Conn)
    (i : nat) (c : Cookie) :
  cookies !! i = Some c -> http.Name c = "SID" ->
  (forall j c', (j < i)%nat -> cookies !! j = Some c' -> http.Name c' <> "SID") ->
  Login_cookies cookies s
  = (tt, set_self {| baseURL := baseURL (self s); sessionID := Value c |} s).
Proof.
  revert i. induction cookies as [|x cs IH]; intros i Hi Hc Hmin; [done|].
  simpl. destruct (String.eqb_spec (http.Name x) "SID") as [Hx|Hx].
  - destruct i as [|i]; [by injection Hi as ->|].
    destruct (Hmin 0%nat x); [lia|done..].
  - destruct i as [|i]; [by injection Hi as ->|].
    apply (IH i); [done..|].
    intros j c' Hj Hl. apply (Hmin (S j)); [lia|done].
Qed.

(** [Login] once the transport has answered with status 200. *)
Lemma Login_answered (username password : string) (s : Conn)
    (resp : Response) :
  let req :=
    {| Method := "POST"; URL := baseURL (self s) +:+ "/api/v2/auth/login";
       ContentType := "application/x-www-form-urlencoded"; ReqCookies := [];
       ReqBody := FormBody (Set_ (Set_ [] "username" username)
                              "password" password) |} in
  ParseURL remote (URL req) = None ->
  RoundTrip remote (sent s) req = inl resp ->
  StatusCode resp = StatusOK ->
  Login remote username password s
  = let s2 := snd (Login_cookies (Cookies resp)
                     {| self := self s; sent := sent s ++ [req] |}) in
    (if String.eqb (sessionID (self s2)) ""
     then Some (errorString
                  "failed to get session ID from qbittorrent response")
     else None, s2).
Proof.
  cbv zeta. intros Hp Hr Hc. run_client. simpl in Hp, Hr.
  rewrite Hp. simpl. rewrite Hr, Hc. simpl.
  destruct (Login_cookies _ _) as [[] s2]. simpl.
  by destruct (String.eqb _ _).
Qed.

(** On a client that holds no session token, a 200 answer without a
    session cookie is an error, and the client still holds no token. *)
Lemma Login_fresh_no_cookie (username password : string) (s : Conn)
    (resp : Response) :
  sessionID (self s) = "" ->
  ParseURL remote (baseURL (self s) +:+ "/api/v2/auth/login") = None ->
  RoundTrip remote (sent s)
    {| Method := "POST"; URL := baseURL (self s) +:+ "/api/v2/auth/login";
       ContentType := "application/x-www-form-urlencoded"; ReqCookies := [];
       ReqBody := FormBody (Set_ (Set_ [] "username" username)
                              "password" password) |} = inl resp ->
  StatusCode resp = StatusOK ->
  (forall c, c ∈ Cookies resp -> http.Name c <> "SID") ->
  fst (Login remote username password s)
  = Some (errorString "failed to get session ID from qbittorrent response")
  /\ self (snd (Login remote username password s)) = self s.
Proof.
  intros Hsid Hp Hr Hc Hno.
  rewrite (Login_answered _ _ _ resp Hp Hr Hc). cbv zeta.
  rewrite (Login_cookies_no_SID _ _ Hno). simpl. by rewrite Hsid.
Qed.

(** On a client that already holds a session token, the same answer is
    taken for a success, and the old token stays. *)
Lemma Login_stale_no_cookie (username password : string) (s : Conn)
    (resp : Response) :
  sessionID (self s) <> "" ->
  ParseURL remote (baseURL (self s) +:+ "/api/v2/auth/login") = None ->
  RoundTrip remote (sent s)
    {| Method := "POST"; URL := baseURL (self s) +:+ "/api/v2/auth/login";
       ContentType := "application/x-www-form-urlencoded"; ReqCookies := [];
       ReqBody := FormBody (Set_ (Set_ [] "username" username)
                              "password" password) |} = inl resp ->
  StatusCode resp = StatusOK ->
  (forall c, c ∈ Cookies resp -> http.Name c <> "SID") ->
  fst (Login remote username password s) = None
  /\ self (snd (Login remote username password s)) = self s.
Proof.
  intros Hsid Hp Hr Hc Hno.
  rewrite (Login_answered _ _ _ resp Hp Hr Hc). cbv zeta.
  rewrite (Login_cookies_no_SID _ _ Hno). simpl.
  by destruct (String.eqb_spec (sessionID (self s)) "").
Qed.

(** A 200 answer whose first [SID] cookie has a non-empty value: Login
    succeeds and the client holds that value. *)
Lemma Login_stores_session (username password : string) (s : Conn)
    (resp : Response) (i : nat) (c : Cookie) :
  ParseURL remote (baseURL (self s) +:+ "/api/v2/auth/login") = None ->
  RoundTrip remote (sent s)
    {| Method := "POST"; URL := baseURL (self s) +:+ "/api/v2/auth/login";
       ContentType := "application/x-www-form-urlencoded"; ReqCookies := [];
       ReqBody := FormBody (Set_ (Set_ [] "username" username)
                              "password" password) |} = inl resp ->
  StatusCode resp = StatusOK ->
  Cookies resp !! i = Some c -> http.Name c = "SID" -> Value c <> "" ->
  (forall j c', (j < i)%nat -> Cookies resp !! j = Some c' ->
                http.Name c' <> "SID") ->
  fst (Login remote username password s) = None
  /\ sessionID (self (snd (Login remote username password s))) = Value c.
Proof.
  intros Hp Hr Hc Hi Hn Hv Hmin.
  rewrite (Login_answered _ _ _ resp Hp Hr Hc). cbv zeta.
  rewrite (Login_cookies_first_SID _ _ i c Hi Hn Hmin). simpl.
  by destruct (String.eqb_spec (Value c) "").
Qed.

End ClientFacts.

(** *** Login at concrete inputs *)

Section LoginExamples.

Import http qbittorrent examples.

(** C5, the failing input.  A client that already holds the session
    token ["OLD"] logs in again; the service answers 200 without any
    cookie.  [Login] returns no error and the client keeps ["OLD"]: the
    missing session cookie goes unnoticed. *)
Theorem Login_missing_cookie_unnoticed :
  Login (answering 200 "200 OK" [] []) "admin" "secret" (conn "OLD")
  = (None, {| self := {| baseURL := "http://qbt:8080"; sessionID := "OLD" |};
              sent := [login_request] |}).
Proof. reflexivity. Qed.

(** [client_test.go] *)
Example TestClient :
  NewClient "http://localhost:8080"
  = {| baseURL := "http://localhost:8080"; sessionID := "" |}.
Proof. reflexivity. Qed.

Example TestNewClient_TrimsTrailingSlash :
  baseURL (NewClient "http://localhost:8080/") = "http://localhost:8080".
Proof. reflexivity. Qed.

(** The same answer on a client without a token is the error the claim
    expects. *)
Example Login_missing_cookie_fresh :
  fst (Login (answering 200 "200 OK" [] []) "admin" "secret" (conn ""))
  = Some (errorString "failed to get session ID from qbittorrent response").
Proof. reflexivity. Qed.

Example Login_stores_SID :
  Login (answering 200 "200 OK"
           [{| http.Name := "lang"; Value := "en" |};
            {| http.Name := "SID"; Value := "s3cr3t" |}] [])
    "admin" "secret" (conn "")
  = (None, {| self := {| baseURL := "http://qbt:8080"; sessionID := "s3cr3t" |};
              sent := [login_request] |}).
Proof. reflexivity. Qed.

Example Login_rejected :
  fst (Login (answering 403 "403 Forbidden" [] []) "admin" "secret" (conn ""))
  = Some (errorString "failed to login to qbittorrent. Status: 403 Forbidden").
Proof. reflexivity. Qed.

Example Login_unreachable :
  fst (Login unreachable "admin" "secret" (conn ""))
  = Some (wrapError "failed to login to qbittorrent: "
            (errorString "connection refused")).
Proof. reflexivity. Qed.

End LoginExamples.

(** ** The reconciliation controller *)

Section ControllerFacts.

Import metav1 v1alpha1 controller props.

Variable rt : Runtime.

Local Arguments setDegradedCondition : simpl never.
Local Arguments setAvailableCondition : simpl never.
Local Arguments StatusUpdate : simpl never.
Local Arguments Update : simpl never.
Local Arguments updateTorrentStatus : simpl never.
Local Arguments removeFinalizer : simpl never.
Local Arguments handleDeletion : simpl never.
Local Arguments reconcile : simpl never.
Local Arguments GetTorrentHash : simpl never.
Local Arguments qbittorrent.DeleteTorrent : simpl never.
Local Arguments qbittorrent.AddTorrent : simpl never.
Local Arguments qbittorrent.GetTorrentInfo : simpl never.
Local Arguments degraded : simpl never.
Local Arguments available : simpl never.
Local Arguments persist_logged : simpl never.

(** *** Finalizer helpers *)

Lemma contains_elem_of (f : list string) (x : string) :
  controllerutil.contains f x = true <-> x ∈ f.
Proof.
  induction f as [|e f IH]; simpl.
  - split; [done|]. by intros ?%not_elem_of_nil.
  - destruct (String.eqb_spec e x) as [->|Hne].
    + split; [left|done].
    + rewrite IH. split; [by right|].
      by intros [?|?]%elem_of_cons.
Qed.

Lemma ContainsFinalizer_false (t : Torrent) :
  ~ has_finalizer t ->
  controllerutil.ContainsFinalizer t TorrentFinalizer = false.
Proof.
  intros H. unfold controllerutil.ContainsFinalizer.
  destruct (controllerutil.contains _ _) eqn:E; [|done].
  by apply contains_elem_of in E.
Qed.

Lemma ContainsFinalizer_true (t : Torrent) :
  has_finalizer t ->
  controllerutil.ContainsFinalizer t TorrentFinalizer = true.
Proof. intros H. by apply contains_elem_of. Qed.

Lemma not_marked (t : Torrent) :
  ~ marked t -> IsZeroPtr (DeletionTimestamp (ObjectMeta t)) = true.
Proof. unfold marked. by destruct (IsZeroPtr _). Qed.

Lemma AddFinalizer_fresh (t : Torrent) :
  ~ has_finalizer t ->
  controllerutil.AddFinalizer t TorrentFinalizer
  = with_Finalizers (GetFinalizers t ++ [TorrentFinalizer]) t.
Proof.
  intros H. unfold controllerutil.AddFinalizer.
  destruct (controllerutil.contains _ _) eqn:E; [|done].
  by apply contains_elem_of in E.
Qed.


(** *** The store *)

Lemma with_Status_same (t : Torrent) : with_Status (Status t) t = t.
Proof. by destruct t. Qed.

Lemma Update_run (w : World) (old : Torrent) :
  stored w = Some old ->
  Update rt w
  = match WriteErr rt (nwrites w) (obj w) with
    | Some err => (Some err, bump w)
    | None =>
        let new := with_Status (Status old) (obj w) in
        (None, {| qbt := qbt w; obj := new; stored := Some new;
                  nwrites := S (nwrites w) |})
    end.
Proof.
  intros H. unfold Update, bump. rewrite H. by destruct (WriteErr _ _ _).
Qed.

Lemma StatusUpdate_run (w : World) (old : Torrent) :
  stored w = Some old ->
  StatusUpdate rt w
  = match WriteErr rt (nwrites w) (obj w) with
    | Some err => (Some err, bump w)
    | None =>
        let new := with_Status (Status (obj w)) old in
        (None, {| qbt := qbt w; obj := new; stored := Some new;
                  nwrites := S (nwrites w) |})
    end.
Proof.
  intros H. unfold StatusUpdate, bump. rewrite H.
  by destruct (WriteErr _ _ _).
Qed.

(** *** Conditions *)

Lemma setDegradedCondition_run (reason message : string) (w : World) :
  setDegradedCondition rt reason message w
  = (tt, set_obj (degraded rt reason message (obj w)) w).
Proof. reflexivity. Qed.

Lemma setAvailableCondition_run (reason message : string) (w : World) :
  setAvailableCondition rt reason message w
  = (tt, set_obj (available rt reason message (obj w)) w).
Proof. reflexivity. Qed.

(** *** The field-by-field diff *)

Lemma fields_eqb_match (st : TorrentStatus) (r : qbittorrent.TorrentInfo) :
  fields_eqb st r = true <-> fields_match st r.
Proof.
  unfold fields_eqb, fields_match.
  rewrite !andb_true_iff, !String.eqb_eq, !Z.eqb_eq. tauto.
Qed.

Lemma synced_match (st : TorrentStatus) (r : qbittorrent.TorrentInfo) :
  fields_match st r -> synced st r = st.
Proof.
  destruct st. unfold fields_match, synced. simpl.
  intros (-> & -> & -> & -> & -> & -> & -> & ->). done.
Qed.

Lemma updateTorrentStatus_run (r : qbittorrent.TorrentInfo) (w : World) :
  updateTorrentStatus r w
  = (negb (fields_eqb (Status (obj w)) r),
     set_obj (with_Status (synced (Status (obj w)) r) (obj w)) w).
Proof.
  destruct w as [c [m sp [cp ao st ts nm ta al h cs]] so n].
  unfold updateTorrentStatus, sync_field, torrent, modify_status,
    modify_torrent, fields_eqb, synced, bind, ret, modify.
  simpl.
  destruct (String.eqb_spec h (qbittorrent.Hash r)) as [->|?]; simpl;
  destruct (String.eqb_spec nm (qbittorrent.Name r)) as [->|?]; simpl;
  destruct (String.eqb_spec st (qbittorrent.State r)) as [->|?]; simpl;
  destruct (Z.eqb_spec ts (qbittorrent.TotalSize r)) as [->|?]; simpl;
  destruct (String.eqb_spec cp (qbittorrent.ContentPath r)) as [->|?]; simpl;
  destruct (Z.eqb_spec ao (qbittorrent.AddedOn r)) as [->|?]; simpl;
  destruct (Z.eqb_spec ta (qbittorrent.TimeActive r)) as [->|?]; simpl;
  destruct (Z.eqb_spec al (qbittorrent.AmountLeft r)) as [->|?]; simpl;
  reflexivity.
Qed.

(** *** One pass, branch by branch *)

Lemma persist_logged_run (t' : Torrent) (w : World) (old : Torrent) :
  stored w = Some old ->
  with_Status (Status t') old = t' ->
  snd (StatusUpdate rt (set_obj t' w)) = persist_logged rt t' w.
Proof.
  intros Hs Heq. rewrite (StatusUpdate_run (set_obj t' w) old) by done.
  unfold persist_logged.
  simpl. destruct (WriteErr rt _ _); [done|]. simpl. by rewrite Heq.
Qed.

(** A logged status write of [t'] in world [w0], whose store holds [old]:
    replace the run of [StatusUpdate] by [persist_logged]. *)
Ltac logged_write t' w0 old :=
  let Hp := fresh "Hp" in
  let e := fresh "e" in
  let w' := fresh "w'" in
  pose proof (persist_logged_run t' w0 old) as Hp;
  unfold fetched, written, set_obj, set_qbt in *; cbn in *;
  destruct (StatusUpdate rt _) as [e w']; cbn in Hp;
  rewrite Hp by done; clear Hp.

(** [handleDeletion] on the fetched resource. *)
Lemma handleDeletion_run (t : Torrent) (w : World) :
  stored w = Some t ->
  handleDeletion rt (fetched t w)
  = let (err, c) :=
      if negb (String.eqb (Hash (Status t)) "")
      then qbittorrent.DeleteTorrent (remote rt) (Hash (Status t)) true (qbt w)
      else (None, qbt w) in
    match err with
    | Some err =>
        ((After (10 * Second), None),
         persist_logged rt
           (degraded rt "FailedToDeleteTorrent" (Error err) t) (set_qbt c w))
    | None =>
        let t' := controllerutil.RemoveFinalizer t TorrentFinalizer in
        match WriteErr rt (nwrites w) t' with
        | Some err => ((Result0, Some err), bump (set_obj t' (set_qbt c w)))
        | None => ((Result0, None), written t' (set_qbt c w))
        end
    end.
Proof.
  intros Hs.
  assert (Hrm : forall c,
    removeFinalizer rt (set_qbt c (fetched t w))
    = let t' := controllerutil.RemoveFinalizer t TorrentFinalizer in
      match WriteErr rt (nwrites w) t' with
      | Some err => ((Result0, Some err), bump (set_obj t' (set_qbt c w)))
      | None => ((Result0, None), written t' (set_qbt c w))
      end).
  { intros c. unfold removeFinalizer, modify_torrent, bind, ret, modify.
    simpl. rewrite (Update_run _ t) by done. simpl.
    by destruct (WriteErr rt _ _). }
  unfold handleDeletion, torrent, bind. cbn.
  destruct (negb (String.eqb (Hash (Status t)) "")).
  - unfold QBT, zoom. cbn.
    destruct (qbittorrent.DeleteTorrent _ _ _ _) as [[err|] c]; cbn.
    + rewrite setDegradedCondition_run.
      logged_write (degraded rt "FailedToDeleteTorrent" (Error err) t)
        (set_qbt c w) t. done.
    + apply Hrm.
  - replace (fetched t w) with (set_qbt (qbt w) (fetched t w))
      by (by destruct w).
    rewrite Hrm. by destruct w.
Qed.

(** [reconcile] on the fetched resource. *)
Lemma reconcile_run (t : Torrent) (w : World) :
  stored w = Some t ->
  reconcile rt (fetched t w)
  = match GetTorrentHash (MagnetURI (Spec t)) with
    | (_, Some err) => ((Result0, Some err), fetched t w)
    | (hash, None) =>
        match qbittorrent.GetTorrentInfo (remote rt) hash (qbt w) with
        | ((_, Some err), c) =>
            ((After (10 * Second), None),
             persist_logged rt
               (degraded rt "FailedToGetTorrentInfo" (Error err) t)
               (set_qbt c w))
        | ((None, None), c) =>
            match qbittorrent.AddTorrent (remote rt) (MagnetURI (Spec t)) c with
            | (Some err, c') =>
                ((After (10 * Second), None),
                 persist_logged rt
                   (degraded rt "FailedToAddTorrent" (Error err) t)
                   (set_qbt c' w))
            | (None, c') =>
                ((After (5 * Second), None),
                 persist_logged rt
                   (available rt "TorrentAdded"
                      "Torrent added to qBittorrent" t)
                   (set_qbt c' w))
            end
        | ((Some r, None), c) =>
            if fields_eqb (Status t) r then
              ((After (30 * Second), None),
               persist_logged rt
                 (available rt "TorrentActive"
                    "Torrent is active on qBittorrent" t)
                 (set_qbt c w))
            else
              let t1 := with_Status (synced (Status t) r) t in
              match WriteErr rt (nwrites w) t1 with
              | Some err =>
                  ((Result0, Some err), bump (set_obj t1 (set_qbt c w)))
              | None =>
                  ((After (30 * Second), None),
                   persist_logged rt
                     (available rt "TorrentActive"
                        "Torrent is active on qBittorrent" t1)
                     (written t1 (set_qbt c w)))
              end
        end
    end.
Proof.
  intros Hs. unfold reconcile, torrent, bind. cbn.
  destruct (GetTorrentHash (MagnetURI (Spec t))) as [hash [err|]]; [done|].
  unfold QBT, zoom. cbn.
  destruct (qbittorrent.GetTorrentInfo _ _ _) as [[info [err|]] c]; cbn.
  { rewrite setDegradedCondition_run.
    logged_write (degraded rt "FailedToGetTorrentInfo" (Error err) t)
      (set_qbt c w) t. by destruct info. }
  destruct info as [r|]; cbn.
  - rewrite updateTorrentStatus_run. cbn.
    destruct (fields_eqb (Status t) r) eqn:Hf; cbn.
    + apply fields_eqb_match, synced_match in Hf. rewrite Hf.
      rewrite with_Status_same, setAvailableCondition_run.
      logged_write (available rt "TorrentActive"
                      "Torrent is active on qBittorrent" t)
        (set_qbt c w) t. done.
    + set (t1 := with_Status (synced (Status t) r) t).
      rewrite (StatusUpdate_run _ t) by done. cbn.
      destruct (WriteErr rt (nwrites w) t1) as [err|]; [done|]. cbn.
      rewrite setAvailableCondition_run.
      change (with_Status (Status t1) t) with t1.
      logged_write (available rt "TorrentActive"
                      "Torrent is active on qBittorrent" t1)
        (written t1 (set_qbt c w)) t1. done.
  - destruct (qbittorrent.AddTorrent _ _ _) as [[err|] c']; cbn.
    + rewrite setDegradedCondition_run.
      logged_write (degraded rt "FailedToAddTorrent" (Error err) t)
        (set_qbt c' w) t. done.
    + rewrite setAvailableCondition_run.
      logged_write (available rt "TorrentAdded"
                      "Torrent added to qBittorrent" t)
        (set_qbt c' w) t. done.
Qed.

(** [Reconcile], up to the choice of the branch. *)
Lemma Reconcile_no_resource (req : string) (w : World) :
  GetErr rt = None -> stored w = None ->
  Reconcile rt req w = ((Result0, None), set_obj zero w).
Proof.
  intros Hg Hs. unfold Reconcile, Get, bind, modify. simpl.
  by rewrite Hg, Hs.
Qed.

Lemma Reconcile_get_failed (req : string) (w : World) (err : error) :
  GetErr rt = Some err ->
  Reconcile rt req w = ((Result0, IgnoreNotFound err), set_obj zero w).
Proof.
  intros Hg. unfold Reconcile, Get, bind, modify. simpl. by rewrite Hg.
Qed.

Lemma Reconcile_marked (req : string) (w : World) (t : Torrent) :
  GetErr rt = None -> stored w = Some t -> marked t ->
  Reconcile rt req w = handleDeletion rt (fetched t w).
Proof.
  intros Hg Hs Hm. unfold Reconcile, Get, torrent, bind, modify. simpl.
  rewrite Hg, Hs. simpl. by rewrite Hm.
Qed.

Lemma Reconcile_fresh (req : string) (w : World) (t : Torrent) :
  GetErr rt = None -> stored w = Some t -> ~ marked t -> ~ has_finalizer t ->
  Reconcile rt req w
  = let t' := with_Finalizers (GetFinalizers t ++ [TorrentFinalizer]) t in
    match WriteErr rt (nwrites w) t' with
    | Some err => ((Result0, Some err), bump (set_obj t' w))
    | None => ((After (1 * Second), None), written t' w)
    end.
Proof.
  intros Hg Hs Hm Hf.
  unfold Reconcile, Get, torrent, modify_torrent, bind, ret, modify. simpl.
  rewrite Hg, Hs. simpl.
  rewrite (not_marked _ Hm), (ContainsFinalizer_false _ Hf). simpl.
  rewrite (Update_run _ t) by done. simpl.
  rewrite (AddFinalizer_fresh _ Hf).
  by destruct (WriteErr rt _ _).
Qed.

Lemma Reconcile_sync (req : string) (w : World) (t : Torrent) :
  GetErr rt = None -> stored w = Some t -> ~ marked t -> has_finalizer t ->
  Reconcile rt req w = reconcile rt (fetched t w).
Proof.
  intros Hg Hs Hm Hf. unfold Reconcile, Get, torrent, bind, modify. simpl.
  rewrite Hg, Hs. simpl.
  by rewrite (not_marked _ Hm), (ContainsFinalizer_true _ Hf).
Qed.

(** *** What a logged status write leaves behind *)

Lemma persist_logged_obj (t' : Torrent) (w : World) :
  obj (persist_logged rt t' w) = t'.
Proof. unfold persist_logged. by destruct (WriteErr rt _ _). Qed.

Lemma persist_logged_stored (t' : Torrent) (w : World) :
  stored (persist_logged rt t' w)
  = match WriteErr rt (nwrites w) t' with
    | Some _ => stored w
    | None => Some t'
    end.
Proof. unfold persist_logged. by destruct (WriteErr rt _ _). Qed.

Lemma persist_logged_qbt (t' : Torrent) (w : World) :
  qbt (persist_logged rt t' w) = qbt w.
Proof. unfold persist_logged. by destruct (WriteErr rt _ _). Qed.

Lemma persist_logged_nwrites (t' : Torrent) (w : World) :
  nwrites (persist_logged rt t' w) = S (nwrites w).
Proof. unfold persist_logged. by destruct (WriteErr rt _ _). Qed.

(** *** Condition lists *)

Lemma Find_update_first (cs : list Condition) (ty : string)
    (f : Condition -> Condition) (c : Condition) :
  (forall x, Type_ (f x) = Type_ x) ->
  meta.FindStatusCondition cs ty = Some c ->
  meta.FindStatusCondition (meta.update_first cs ty f) ty = Some (f c).
Proof.
  intros Hf. induction cs as [|x cs IH]; simpl; [done|].
  destruct (String.eqb_spec (Type_ x) ty) as [Hx|Hx].
  - intros [= ->]. simpl. rewrite Hf.
    by destruct (String.eqb_spec (Type_ c) ty).
  - intros Hc. simpl. destruct (String.eqb_spec (Type_ x) ty); [done|auto].
Qed.

Lemma Find_app_None (cs : list Condition) (ty : string) (c : Condition) :
  meta.FindStatusCondition cs ty = None -> Type_ c = ty ->
  meta.FindStatusCondition (cs ++ [c]) ty = Some c.
Proof.
  intros Hn Hc. induction cs as [|x cs IH]; simpl in *.
  - by destruct (String.eqb_spec (Type_ c) ty).
  - destruct (String.eqb (Type_ x) ty); [done|auto].
Qed.

(** After [SetStatusCondition], the first condition of the new
    condition's type carries its status, reason and message. *)
Lemma Find_Set (now : Time) (cs : list Condition) (new : Condition) :
  exists c, meta.FindStatusCondition
              (meta.SetStatusCondition now cs new) (Type_ new) = Some c
            /\ Type_ c = Type_ new
            /\ metav1.Status c = metav1.Status new
            /\ Reason c = Reason new /\ Message c = Message new
            /\ ObservedGeneration c = ObservedGeneration new.
Proof.
  unfold meta.SetStatusCondition.
  destruct (meta.FindStatusCondition cs (Type_ new)) as [old|] eqn:Hfind.
  - exists (meta.merge now old new). split.
    + by apply (Find_update_first cs (Type_ new)
                  (fun existing => meta.merge now existing new)).
    + assert (Type_ old = Type_ new); [|done].
      clear -Hfind. induction cs as [|x cs IH]; simpl in *; [done|].
      destruct (String.eqb_spec (Type_ x) (Type_ new)); [|auto].
      by injection Hfind as <-.
  - eexists. split; [apply Find_app_None; [done|]|];
      by destruct (IsZero (LastTransitionTime new)).
Qed.

Lemma Find_Remove_ne (cs : list Condition) (ty ty' : string) :
  ty <> ty' ->
  meta.FindStatusCondition (meta.RemoveStatusCondition cs ty') ty
  = meta.FindStatusCondition cs ty.
Proof.
  intros Hne. induction cs as [|x cs IH]; simpl; [done|].
  destruct (String.eqb_spec (Type_ x) ty') as [Hx|Hx]; simpl.
  - destruct (String.eqb_spec (Type_ x) ty); [congruence|done].
  - by destruct (String.eqb (Type_ x) ty).
Qed.

Lemma Remove_absent (cs : list Condition) (ty : string) :
  absent (meta.RemoveStatusCondition cs ty) ty.
Proof.
  induction cs as [|x cs IH]; simpl; [by intros c ?%not_elem_of_nil|].
  destruct (String.eqb_spec (Type_ x) ty) as [Hx|Hx]; simpl; [done|].
  by intros c [->|?]%elem_of_cons; [|apply IH].
Qed.

Lemma absent_exclusive_l (cs : list Condition) :
  absent cs TypeAvailableTorrent -> exclusive cs.
Proof. intros Ha [(c & Hc & Hty & _) _]. by apply (Ha c). Qed.

Lemma absent_exclusive_r (cs : list Condition) :
  absent cs TypeDegradedTorrent -> exclusive cs.
Proof. intros Ha [_ (c & Hc & Hty & _)]. by apply (Ha c). Qed.

Lemma Find_elem_of (cs : list Condition) (ty : string) (c : Condition) :
  meta.FindStatusCondition cs ty = Some c -> c ∈ cs /\ Type_ c = ty.
Proof.
  induction cs as [|x cs IH]; simpl; [done|].
  destruct (String.eqb_spec (Type_ x) ty) as [Hx|Hx].
  - intros [= ->]. split; [left|done].
  - intros [? ?]%IH. split; [by right|done].
Qed.

(** What [setDegradedCondition] leaves in the object. *)
Lemma degraded_spec (reason message : string) (t : Torrent) :
  let cs := Conditions (Status (degraded rt reason message t)) in
  (exists c, meta.FindStatusCondition cs TypeDegradedTorrent = Some c
             /\ metav1.Status c = ConditionTrue
             /\ Reason c = reason /\ Message c = message)
  /\ absent cs TypeAvailableTorrent
  /\ holds_true cs TypeDegradedTorrent.
Proof.
  cbn. destruct (Find_Set (Now rt 1) (Conditions (Status t))
                   (DegradedCondition rt reason message))
    as (c & Hc & Hty & Hst & Hr & Hm & _).
  assert (Hfind : meta.FindStatusCondition
            (meta.RemoveStatusCondition
               (meta.SetStatusCondition (Now rt 1) (Conditions (Status t))
                  (DegradedCondition rt reason message))
               TypeAvailableTorrent) TypeDegradedTorrent = Some c).
  { by rewrite Find_Remove_ne. }
  split_and!.
  - by exists c.
  - apply Remove_absent.
  - exists c. apply Find_elem_of in Hfind as [? ?]. done.
Qed.

(** What [setAvailableCondition] leaves in the object. *)
Lemma available_spec (reason message : string) (t : Torrent) :
  let cs := Conditions (Status (available rt reason message t)) in
  (exists c, meta.FindStatusCondition cs TypeAvailableTorrent = Some c
             /\ metav1.Status c = ConditionTrue
             /\ Reason c = reason /\ Message c = message)
  /\ absent cs TypeDegradedTorrent
  /\ holds_true cs TypeAvailableTorrent.
Proof.
  cbn. destruct (Find_Set (Now rt 1) (Conditions (Status t))
                   (AvailableCondition rt reason message))
    as (c & Hc & Hty & Hst & Hr & Hm & _).
  assert (Hfind : meta.FindStatusCondition
            (meta.RemoveStatusCondition
               (meta.SetStatusCondition (Now rt 1) (Conditions (Status t))
                  (AvailableCondition rt reason message))
               TypeDegradedTorrent) TypeAvailableTorrent = Some c).
  { by rewrite Find_Remove_ne. }
  split_and!.
  - by exists c.
  - apply Remove_absent.
  - exists c. apply Find_elem_of in Hfind as [? ?]. done.
Qed.

(** *** The shape of the status after a pass *)

(** Whatever the branch, the conditions a pass leaves in the object and
    in the store are the empty list, the fetched ones, or the result of
    one of the two setters. *)
Lemma pass_conditions (req : string) (w : World)
    (P : list Condition -> Prop) :
  P [] ->
  (forall t, stored w = Some t -> P (Conditions (Status t))) ->
  (forall reason message t,
      P (Conditions (Status (degraded rt reason message t)))) ->
  (forall reason message t,
      P (Conditions (Status (available rt reason message t)))) ->
  P (Conditions (Status (obj (snd (Reconcile rt req w)))))
  /\ (forall t', stored (snd (Reconcile rt req w)) = Some t' ->
                 P (Conditions (Status t'))).
Proof.
  intros Hnil Hold Hdeg Hav.
  destruct (GetErr rt) as [err|] eqn:Hg.
  { rewrite (Reconcile_get_failed _ _ _ Hg). cbn. auto. }
  destruct (stored w) as [t|] eqn:Hs.
  2:{ rewrite (Reconcile_no_resource _ _ Hg Hs). cbn. rewrite Hs. auto. }
  specialize (Hold t eq_refl).
  destruct (IsZeroPtr (DeletionTimestamp (ObjectMeta t))) eqn:Hm.
  2:{ rewrite (Reconcile_marked _ _ t Hg Hs Hm), (handleDeletion_run t w Hs).
      destruct (if negb _ then _ else _) as [[err|] c]; cbn.
      - rewrite persist_logged_obj, persist_logged_stored. cbn.
        split; [done|]. intros t'. rewrite Hs.
        destruct (WriteErr rt _ _); by intros [= <-].
      - cbn. destruct (WriteErr rt _ _); cbn; rewrite ?Hs;
          (split; [done|]); by intros t' [= <-]. }
  assert (Hnm : ~ marked t) by (unfold marked; congruence).
  destruct (decide (TorrentFinalizer ∈ GetFinalizers t)) as [Hf|Hf].
  2:{ rewrite (Reconcile_fresh _ _ t Hg Hs Hnm Hf). cbn.
      destruct (WriteErr rt _ _); cbn; rewrite ?Hs;
        (split; [done|]); by intros t' [= <-]. }
  rewrite (Reconcile_sync _ _ t Hg Hs Hnm Hf), (reconcile_run t w Hs).
  destruct (GetTorrentHash _) as [hash [err|]]; cbn.
  { cbn. rewrite Hs. split; [done|]. by intros t' [= <-]. }
  destruct (qbittorrent.GetTorrentInfo _ _ _) as [[[r|] [err|]] c]; cbn.
  - rewrite persist_logged_obj, persist_logged_stored. cbn.
    split; [done|]. intros t'. rewrite Hs.
    destruct (WriteErr rt _ _); by intros [= <-].
  - destruct (fields_eqb _ _); cbn.
    + rewrite persist_logged_obj, persist_logged_stored. cbn.
      split; [done|]. intros t'. rewrite Hs.
      destruct (WriteErr rt _ _); by intros [= <-].
    + destruct (WriteErr rt (nwrites w) _); cbn.
      * cbn. rewrite Hs. split; [done|]. by intros t' [= <-].
      * rewrite persist_logged_obj, persist_logged_stored. cbn.
        split; [done|]. intros t'.
        destruct (WriteErr rt _ _); by intros [= <-].
  - rewrite persist_logged_obj, persist_logged_stored. cbn.
    split; [done|]. intros t'. rewrite Hs.
    destruct (WriteErr rt _ _); by intros [= <-].
  - destruct (qbittorrent.AddTorrent _ _ _) as [[err|] c']; cbn;
      rewrite persist_logged_obj, persist_logged_stored; cbn;
      (split; [done|]); intros t'; rewrite Hs;
      destruct (WriteErr rt _ _); by intros [= <-].
Qed.

(** The finalizer list a pass leaves in the store: the fetched one; the
    fetched one with the token appended, on an unmarked resource without
    it; or the fetched one with the token removed, on a marked resource
    whose observed hash is empty or whose remote delete succeeded. *)
Lemma pass_finalizers (req : string) (w : World) (t t' : Torrent) :
  stored w = Some t ->
  stored (snd (Reconcile rt req w)) = Some t' ->
  GetFinalizers t' = GetFinalizers t
  \/ (~ marked t /\ ~ has_finalizer t
      /\ GetFinalizers t' = GetFinalizers t ++ [TorrentFinalizer])
  \/ (marked t
      /\ (Hash (Status t) = ""
          \/ fst (qbittorrent.DeleteTorrent (remote rt)
                    (Hash (Status t)) true (qbt w)) = None)
      /\ GetFinalizers t'
         = controllerutil.remove (GetFinalizers t) TorrentFinalizer).
Proof.
  intros Hs.
  destruct (GetErr rt) as [err|] eqn:Hg.
  { rewrite (Reconcile_get_failed _ _ _ Hg). cbn. rewrite Hs.
    intros [= <-]. by left. }
  destruct (IsZeroPtr (DeletionTimestamp (ObjectMeta t))) eqn:Hm.
  2:{ rewrite (Reconcile_marked _ _ t Hg Hs Hm), (handleDeletion_run t w Hs).
      destruct (String.eqb_spec (Hash (Status t)) "") as [Hh|Hh]; cbn.
      - destruct (WriteErr rt _ _); cbn; rewrite ?Hs; intros [= <-];
          [by left|]. right; right. split_and!; [done|by left|done].
      - destruct (qbittorrent.DeleteTorrent _ _ _ _) as [[err|] c]; cbn.
        + rewrite persist_logged_stored. cbn. rewrite Hs.
          destruct (WriteErr rt _ _); intros [= <-]; by left.
        + destruct (WriteErr rt _ _); cbn; rewrite ?Hs; intros [= <-];
            [by left|]. right; right. split_and!; [done|by right|done]. }
  assert (Hnm : ~ marked t) by (unfold marked; congruence).
  destruct (decide (TorrentFinalizer ∈ GetFinalizers t)) as [Hf|Hf].
  2:{ rewrite (Reconcile_fresh _ _ t Hg Hs Hnm Hf). cbn.
      destruct (WriteErr rt _ _); cbn; rewrite ?Hs; intros [= <-];
        [by left|]. right; left. done. }
  rewrite (Reconcile_sync _ _ t Hg Hs Hnm Hf), (reconcile_run t w Hs).
  destruct (GetTorrentHash _) as [hash [err|]]; cbn.
  { rewrite Hs. intros [= <-]. by left. }
  destruct (qbittorrent.GetTorrentInfo _ _ _) as [[[r|] [err|]] c]; cbn.
  - rewrite persist_logged_stored. cbn. rewrite Hs.
    destruct (WriteErr rt _ _); intros [= <-]; by left.
  - destruct (fields_eqb _ _); cbn.
    + rewrite persist_logged_stored. cbn. rewrite Hs.
      destruct (WriteErr rt _ _); intros [= <-]; by left.
    + destruct (WriteErr rt (nwrites w) _); cbn.
      * rewrite Hs. intros [= <-]. by left.
      * rewrite persist_logged_stored. cbn.
        destruct (WriteErr rt _ _); intros [= <-]; by left.
  - rewrite persist_logged_stored. cbn. rewrite Hs.
    destruct (WriteErr rt _ _); intros [= <-]; by left.
  - destruct (qbittorrent.AddTorrent _ _ _) as [[err|] c']; cbn;
      rewrite persist_logged_stored; cbn; rewrite Hs;
      destruct (WriteErr rt _ _); intros [= <-]; by left.
Qed.

(** *** The claims about a pass *)

(** C8.  On a resource without deletion marker and without the finalizer
    token, a pass sends nothing to the remote service and leaves the
    client alone, attempts exactly one store write, and that write is
    the fetched resource with the token appended to its finalizers, spec
    and status as fetched; when the write succeeds the store holds that
    resource and the pass returns a 1-second requeue without error (when
    it fails, the store is as before and the pass returns the write's
    error). *)
Theorem finalizer_before_business (req : string) (w : World) (t : Torrent) :
  GetErr rt = None ->
  stored w = Some t ->
  ~ marked t ->
  ~ has_finalizer t ->
  let r := Reconcile rt req w in
  let t' := with_Finalizers (GetFinalizers t ++ [TorrentFinalizer]) t in
  qbt (snd r) = qbt w
  /\ qbittorrent.sent (qbt (snd r)) = qbittorrent.sent (qbt w)
  /\ nwrites (snd r) = S (nwrites w)
  /\ obj (snd r) = t'
  /\ has_finalizer t' /\ Spec t' = Spec t /\ Status t' = Status t
  /\ match WriteErr rt (nwrites w) t' with
     | None => stored (snd r) = Some t' /\ fst r = (After (1 * Second), None)
     | Some err => stored (snd r) = Some t /\ fst r = (Result0, Some err)
     end.
Proof.
  intros Hg Hs Hm Hf. cbv zeta.
  rewrite (Reconcile_fresh _ _ t Hg Hs Hm Hf). cbv zeta.
  assert (Hin : has_finalizer
            (with_Finalizers (GetFinalizers t ++ [TorrentFinalizer]) t)).
  { unfold has_finalizer. cbn. apply elem_of_app. right. left. }
  destruct (WriteErr rt _ _); cbn; by rewrite ?Hs.
Qed.

(** C1.  On a fetched resource: if it carries a deletion marker and a
    non-empty observed hash and DeleteTorrent fails, the pass returns a
    10-second requeue without error, the finalizer list is as fetched in
    the object and in the store, and the object holds a Degraded
    condition with status True, reason FailedToDeleteTorrent and the
    error's message (and no Available condition), which is also what the
    store holds when the status write succeeded.  And whenever the store
    held the token before the pass and does not hold it after, the
    resource was marked for deletion and its observed hash was empty or
    DeleteTorrent succeeded. *)
Theorem deletion_guard (req : string) (w : World) (t : Torrent) :
  GetErr rt = None ->
  stored w = Some t ->
  let r := Reconcile rt req w in
  let del := fst (qbittorrent.DeleteTorrent (remote rt)
                    (Hash (Status t)) true (qbt w)) in
  (marked t -> Hash (Status t) <> "" ->
   forall err, del = Some err ->
     fst r = (After (10 * Second), None)
     /\ GetFinalizers (obj (snd r)) = GetFinalizers t
     /\ (exists t', stored (snd r) = Some t'
                    /\ GetFinalizers t' = GetFinalizers t
                    /\ (WriteErr rt (nwrites w) (obj (snd r)) = None ->
                        t' = obj (snd r)))
     /\ (exists c, meta.FindStatusCondition
                     (Conditions (Status (obj (snd r)))) TypeDegradedTorrent
                   = Some c
                   /\ metav1.Status c = ConditionTrue
                   /\ Reason c = "FailedToDeleteTorrent"
                   /\ Message c = Error err)
     /\ absent (Conditions (Status (obj (snd r)))) TypeAvailableTorrent)
  /\ (forall t', stored (snd r) = Some t' ->
                 has_finalizer t -> ~ has_finalizer t' ->
                 marked t /\ (Hash (Status t) = "" \/ del = None)).
Proof.
  intros Hg Hs. cbv zeta. split.
  - intros Hm Hh err Hdel.
    rewrite (Reconcile_marked _ _ t Hg Hs Hm), (handleDeletion_run t w Hs).
    destruct (String.eqb_spec (Hash (Status t)) "") as [?|_]; [done|]. cbn.
    destruct (qbittorrent.DeleteTorrent _ _ _ _) as [e c]. cbn in Hdel.
    subst e. cbn. rewrite persist_logged_obj, persist_logged_stored. cbn.
    destruct (degraded_spec "FailedToDeleteTorrent" (Error err) t)
      as (Hc & Ha & _).
    split_and!; [done|done| |done|done].
    destruct (WriteErr rt _ _) as [e|].
    + exists t. by rewrite Hs.
    + eexists. done.
  - intros t' Hs' Hf Hnf.
    destruct (pass_finalizers req w t t' Hs Hs')
      as [Heq|[(_ & Hno & _)|(Hm & Hd & _)]]; [|done..].
    destruct Hnf. unfold has_finalizer. by rewrite Heq.
Qed.

Lemma fields_eqb_false (st : TorrentStatus) (r : qbittorrent.TorrentInfo) :
  ~ fields_match st r -> fields_eqb st r = false.
Proof.
  intros H. destruct (fields_eqb st r) eqn:E; [|done].
  by apply fields_eqb_match in E.
Qed.

(** C4, as amended.  On a fetched resource, a failed store write is
    returned by the pass as its error, with no requeue, when it is the
    write of the resource itself (the finalizer being added or removed)
    or the status write of changed observed fields.  The status write
    that records a Degraded or an Available condition is attempted, but
    its outcome does not reach the caller: whatever the store answers,
    the pass returns its requeue (10 s after a failed remote call, 5 s
    after an add, 30 s after a sync) and no error. *)
Theorem persist_failure_outcomes (req : string) (w : World) (t : Torrent) :
  GetErr rt = None ->
  stored w = Some t ->
  let r := Reconcile rt req w in
  let del := fst (qbittorrent.DeleteTorrent (remote rt)
                    (Hash (Status t)) true (qbt w)) in
  (* hard failures *)
  (~ marked t -> ~ has_finalizer t -> forall err,
     WriteErr rt (nwrites w)
       (with_Finalizers (GetFinalizers t ++ [TorrentFinalizer]) t) = Some err ->
     fst r = (Result0, Some err))
  /\ (marked t -> Hash (Status t) = "" \/ del = None -> forall err,
       WriteErr rt (nwrites w)
         (controllerutil.RemoveFinalizer t TorrentFinalizer) = Some err ->
       fst r = (Result0, Some err))
  /\ (~ marked t -> has_finalizer t -> forall hash r0 err,
       GetTorrentHash (MagnetURI (Spec t)) = (hash, None) ->
       fst (qbittorrent.GetTorrentInfo (remote rt) hash (qbt w))
       = (Some r0, None) ->
       ~ fields_match (Status t) r0 ->
       WriteErr rt (nwrites w) (with_Status (synced (Status t) r0) t)
       = Some err ->
       fst r = (Result0, Some err))
  (* logged only *)
  /\ (marked t -> Hash (Status t) <> "" -> del <> None ->
      fst r = (After (10 * Second), None)
      /\ nwrites (snd r) = S (nwrites w))
  /\ (~ marked t -> has_finalizer t -> forall hash,
      GetTorrentHash (MagnetURI (Spec t)) = (hash, None) ->
      match qbittorrent.GetTorrentInfo (remote rt) hash (qbt w) with
      | ((_, Some _), _) =>
          fst r = (After (10 * Second), None)
          /\ nwrites (snd r) = S (nwrites w)
      | ((None, None), c) =>
          fst r = (match fst (qbittorrent.AddTorrent (remote rt)
                                (MagnetURI (Spec t)) c) with
                   | Some _ => After (10 * Second)
                   | None => After (5 * Second)
                   end, None)
          /\ nwrites (snd r) = S (nwrites w)
      | ((Some r0, None), _) =>
          (fields_match (Status t) r0 ->
           fst r = (After (30 * Second), None)
           /\ nwrites (snd r) = S (nwrites w))
          /\ (~ fields_match (Status t) r0 ->
              WriteErr rt (nwrites w) (with_Status (synced (Status t) r0) t)
              = None ->
              fst r = (After (30 * Second), None)
              /\ nwrites (snd r) = S (S (nwrites w)))
      end).
Proof.
  intros Hg Hs. cbv zeta. split_and!.
  - intros Hm Hf err Hw. rewrite (Reconcile_fresh _ _ t Hg Hs Hm Hf).
    cbv zeta. by rewrite Hw.
  - intros Hm Hd err Hw.
    rewrite (Reconcile_marked _ _ t Hg Hs Hm), (handleDeletion_run t w Hs).
    destruct (String.eqb_spec (Hash (Status t)) "") as [Hh|Hh]; cbn.
    + by rewrite Hw.
    + destruct Hd as [?|Hd]; [done|].
      destruct (qbittorrent.DeleteTorrent _ _ _ _) as [e c]. cbn in Hd.
      subst e. cbn. by rewrite Hw.
  - intros Hm Hf hash r0 err Hh Hi Hne Hw.
    rewrite (Reconcile_sync _ _ t Hg Hs Hm Hf), (reconcile_run t w Hs), Hh.
    destruct (qbittorrent.GetTorrentInfo _ _ _) as [[i e] c]. cbn in Hi.
    injection Hi as -> ->. rewrite (fields_eqb_false _ _ Hne). cbv zeta.
    by rewrite Hw.
  - intros Hm Hh Hd.
    rewrite (Reconcile_marked _ _ t Hg Hs Hm), (handleDeletion_run t w Hs).
    destruct (String.eqb_spec (Hash (Status t)) "") as [?|_]; [done|]. cbn.
    destruct (qbittorrent.DeleteTorrent _ _ _ _) as [[e|] c]; [|done]. cbn.
    by rewrite persist_logged_nwrites.
  - intros Hm Hf hash Hh.
    rewrite (Reconcile_sync _ _ t Hg Hs Hm Hf), (reconcile_run t w Hs), Hh.
    destruct (qbittorrent.GetTorrentInfo _ _ _) as [[[r0|] [e|]] c]; cbn.
    + by rewrite persist_logged_nwrites.
    + split.
      * intros Hfm%fields_eqb_match. rewrite Hfm. cbn.
        by rewrite persist_logged_nwrites.
      * intros Hne Hw. rewrite (fields_eqb_false _ _ Hne). cbv zeta.
        rewrite Hw. cbn. by rewrite persist_logged_nwrites.
    + by rewrite persist_logged_nwrites.
    + destruct (qbittorrent.AddTorrent _ _ _) as [[e|] c']; cbn;
        by rewrite persist_logged_nwrites.
Qed.

End ControllerFacts.

Section Reachable.

Import metav1 v1alpha1 controller props.

(** Exclusivity holds in every reachable world. *)
Lemma reachable_exclusive (w : World) :
  reachable w ->
  forall t, stored w = Some t -> exclusive (Conditions (Status t)).
Proof.
  induction 1 as [w Hnil|rt' req w Hr IH|w w' Hr IH Hsame]; intros t Ht.
  - rewrite (Hnil t Ht). intros [(c & Hc%not_elem_of_nil & _) _]. done.
  - revert t Ht. apply (pass_conditions rt' req w exclusive); [|done|..].
    + intros [(c & Hc%not_elem_of_nil & _) _]. done.
    + intros. apply absent_exclusive_l, degraded_spec.
    + intros. apply absent_exclusive_r, available_spec.
  - destruct (Hsame t Ht) as [->|(t0 & Ht0 & ->)]; [|by apply IH].
    intros [(c & Hc%not_elem_of_nil & _) _]. done.
Qed.

(** C2.  After a pass, neither the object nor the store holds both
    Available=True and Degraded=True: whenever the store did not hold both
    before the pass, and hence in every world that can arise from a
    resource created without conditions.  Each of the two setters leaves
    its own condition with status True and no condition of the other type
    at all, whatever the conditions were. *)
Theorem condition_exclusivity (rt : Runtime) (req : string) (w : World) :
  let w' := snd (Reconcile rt req w) in
  let exclusive_after :=
    exclusive (Conditions (Status (obj w')))
    /\ (forall t', stored w' = Some t' -> exclusive (Conditions (Status t'))) in
  ((forall t, stored w = Some t -> exclusive (Conditions (Status t))) ->
   exclusive_after)
  /\ (reachable w -> exclusive_after)
  /\ (forall reason message w0,
        let cs := Conditions (Status (obj (snd
                    (setDegradedCondition rt reason message w0)))) in
        holds_true cs TypeDegradedTorrent /\ absent cs TypeAvailableTorrent)
  /\ (forall reason message w0,
        let cs := Conditions (Status (obj (snd
                    (setAvailableCondition rt reason message w0)))) in
        holds_true cs TypeAvailableTorrent /\ absent cs TypeDegradedTorrent).
Proof.
  cbv zeta.
  assert (Hd : forall reason message t,
             exclusive (Conditions (Status (degraded rt reason message t)))).
  { intros. apply absent_exclusive_l, degraded_spec. }
  assert (Ha : forall reason message t,
             exclusive (Conditions (Status (available rt reason message t)))).
  { intros. apply absent_exclusive_r, available_spec. }
  assert (Hnil : exclusive []).
  { intros [(c & Hc%not_elem_of_nil & _) _]. done. }
  assert (Hpass : (forall t, stored w = Some t ->
                             exclusive (Conditions (Status t))) ->
                  exclusive (Conditions (Status (obj (snd (Reconcile rt req w)))))
                  /\ (forall t', stored (snd (Reconcile rt req w)) = Some t' ->
                                 exclusive (Conditions (Status t')))).
  { intros Hinv. by apply (pass_conditions rt req w exclusive). }
  split_and!.
  - exact Hpass.
  - intros Hr. apply Hpass. by apply reachable_exclusive.
  - intros reason message w0. rewrite setDegradedCondition_run. cbn [snd].
    change (obj (set_obj ?x _)) with x.
    destruct (degraded_spec rt reason message (obj w0)) as (_ & ? & ?). done.
  - intros reason message w0. rewrite setAvailableCondition_run. cbn [snd].
    change (obj (set_obj ?x _)) with x.
    destruct (available_spec rt reason message (obj w0)) as (_ & ? & ?). done.
Qed.

End Reachable.

(** ** Two passes in a row *)

Section Idempotence.

Import metav1 v1alpha1 controller props.

Local Arguments persist_logged : simpl never.
Local Arguments available : simpl never.
Local Arguments GetTorrentHash : simpl never.
Local Arguments qbittorrent.GetTorrentInfo : simpl never.

Lemma update_first_id (cs : list Condition) (ty : string)
    (f : Condition -> Condition) (c : Condition) :
  meta.FindStatusCondition cs ty = Some c -> f c = c ->
  meta.update_first cs ty f = cs.
Proof.
  intros Hfind Hfc. induction cs as [|x cs IH]; simpl in *; [done|].
  destruct (String.eqb (Type_ x) ty).
  - injection Hfind as ->. by rewrite Hfc.
  - by rewrite IH.
Qed.

Lemma Remove_idem (cs : list Condition) (ty : string) :
  meta.RemoveStatusCondition (meta.RemoveStatusCondition cs ty) ty
  = meta.RemoveStatusCondition cs ty.
Proof.
  induction cs as [|x cs IH]; simpl; [done|].
  destruct (String.eqb (Type_ x) ty) eqn:E; simpl; [done|].
  by rewrite E, IH.
Qed.

(** Setting Available again, with the same reason and message, on the
    conditions an earlier [setAvailableCondition] left changes nothing,
    whatever the two clocks read. *)
Lemma available_again (rt1 rt2 : Runtime) (reason message : string)
    (t t1 : Torrent) :
  Conditions (Status t1)
  = Conditions (Status (available rt1 reason message t)) ->
  available rt2 reason message t1 = t1.
Proof.
  intros Hc.
  assert (Hcs : Conditions (Status (available rt2 reason message t1))
                = Conditions (Status t1)).
  { unfold available at 1. cbn. rewrite Hc. unfold available. cbn.
    destruct (Find_Set (Now rt1 1) (Conditions (Status t))
                (AvailableCondition rt1 reason message))
      as (c & Hfind & Hty & Hst & Hr & Hm & Hg).
    set (X := meta.SetStatusCondition (Now rt1 1) (Conditions (Status t))
                (AvailableCondition rt1 reason message)) in *.
    assert (Hfind' : meta.FindStatusCondition
              (meta.RemoveStatusCondition X TypeDegradedTorrent)
              TypeAvailableTorrent = Some c) by (by rewrite Find_Remove_ne).
    unfold meta.SetStatusCondition at 1. cbn [Type_ AvailableCondition].
    rewrite Hfind'.
    rewrite (update_first_id _ _ _ c Hfind'); [apply Remove_idem|].
    destruct c. cbn in *. subst. reflexivity. }
  unfold available in *. cbn in Hcs. rewrite Hcs. by destruct t1 as [? ? []].
Qed.

(** C6.  A resource with the finalizer, without deletion marker, whose
    observed fields all match the remote record, is reconciled twice in
    a row, the remote record being the same for both passes and the
    status write of the first pass having succeeded.  Then in the second
    pass the field-by-field diff reports no update and changes nothing,
    the store after the pass holds exactly what it held before it, the
    object is as fetched, and the pass returns the 30-second requeue. *)
Theorem settled_pass_is_idempotent (rt1 rt2 : Runtime) (req : string)
    (w : World) (t : Torrent) (hash : string) (r : qbittorrent.TorrentInfo) :
  GetErr rt1 = None -> GetErr rt2 = None ->
  stored w = Some t ->
  ~ marked t -> has_finalizer t ->
  GetTorrentHash (MagnetURI (Spec t)) = (hash, None) ->
  fields_match (Status t) r ->
  let w1 := snd (Reconcile rt1 req w) in
  let p2 := Reconcile rt2 req w1 in
  fst (qbittorrent.GetTorrentInfo (remote rt1) hash (qbt w)) = (Some r, None) ->
  fst (qbittorrent.GetTorrentInfo (remote rt2) hash (qbt w1)) = (Some r, None) ->
  (forall o, WriteErr rt1 (nwrites w) o = None) ->
  exists t1,
    stored w1 = Some t1
    /\ updateTorrentStatus r (fetched t1 w1) = (false, fetched t1 w1)
    /\ stored (snd p2) = stored w1
    /\ obj (snd p2) = t1
    /\ fst p2 = (After (30 * Second), None).
Proof.
  intros Hg1 Hg2 Hs Hm Hf Hh Hfm. cbv zeta.
  rewrite (Reconcile_sync rt1 _ _ t Hg1 Hs Hm Hf), (reconcile_run rt1 t w Hs), Hh.
  destruct (qbittorrent.GetTorrentInfo (remote rt1) hash (qbt w))
    as [[i1 e1] c1] eqn:Hi1.
  intros [= -> ->] Hi2 Hw1.
  pose proof (proj2 (fields_eqb_match _ _) Hfm) as Hfe.
  rewrite Hfe in *. cbn [snd] in *.
  set (t1 := available rt1 "TorrentActive"
               "Torrent is active on qBittorrent" t) in *.
  assert (Hw : persist_logged rt1 t1 (set_qbt c1 w) = written t1 (set_qbt c1 w)).
  { unfold persist_logged. cbn. by rewrite Hw1. }
  rewrite Hw in *. clear Hw. cbn in Hi2.
  set (w1 := written t1 (set_qbt c1 w)) in *.
  assert (Hs1 : stored w1 = Some t1) by done.
  assert (Hm1 : ~ marked t1) by done.
  assert (Hf1 : has_finalizer t1) by done.
  assert (Hfm1 : fields_match (Status t1) r) by done.
  exists t1. split; [done|]. split.
  { rewrite updateTorrentStatus_run. cbn.
    rewrite (proj2 (fields_eqb_match _ _) Hfm1). cbn.
    rewrite (synced_match _ _ Hfm1), with_Status_same. done. }
  rewrite (Reconcile_sync rt2 _ _ t1 Hg2 Hs1 Hm1 Hf1),
    (reconcile_run rt2 t1 w1 Hs1).
  change (MagnetURI (Spec t1)) with (MagnetURI (Spec t)). rewrite Hh.
  change (qbt w1) with c1.
  destruct (qbittorrent.GetTorrentInfo (remote rt2) hash c1)
    as [[i2 e2] c2] eqn:Hi2'.
  cbn in Hi2. injection Hi2 as -> ->.
  rewrite (proj2 (fields_eqb_match _ _) Hfm1). cbn [fst snd].
  rewrite (available_again rt1 rt2 _ _ t t1 eq_refl).
  rewrite persist_logged_obj, persist_logged_stored. cbn.
  by destruct (WriteErr rt2 _ _).
Qed.

End Idempotence.

(** ** The claims at concrete inputs *)

Section Concrete.

Import http qbittorrent metav1 v1alpha1 controller props examples.

(** *** The client *)

Lemma GetTorrentInfo_absent_is_no_error_witness :
  fst (GetTorrentInfo
         (answering 200 "200 OK" [] [record "ABC123" "test" "downloading"])
         "FFFF" (conn "SID0"))
  = (None, None).
Proof.
  apply (proj1 (GetTorrentInfo_absent_is_no_error
                  (answering 200 "200 OK" []
                     [record "ABC123" "test" "downloading"])
                  "FFFF" (conn "SID0")
                  [record "ABC123" "test" "downloading"] None eq_refl)).
  - reflexivity.
  - intros r Hr. apply list_elem_of_singleton in Hr. subst r. discriminate.
Defined.

Lemma GetTorrentInfo_first_match_witness :
  fst (GetTorrentInfo
         (answering 200 "200 OK" []
            [record "AAA" "other" "paused";
             record "BBB" "first" "downloading";
             record "BBB" "second" "uploading"])
         "BBB" (conn "SID0"))
  = (Some (record "BBB" "first" "downloading"), None).
Proof.
  apply (proj2 (GetTorrentInfo_first_match
                  (answering 200 "200 OK" []
                     [record "AAA" "other" "paused";
                      record "BBB" "first" "downloading";
                      record "BBB" "second" "uploading"])
                  "BBB" (conn "SID0")
                  [record "AAA" "other" "paused";
                   record "BBB" "first" "downloading";
                   record "BBB" "second" "uploading"]
                  (record "BBB" "first" "downloading") eq_refl)).
  exists 1%nat. split; [reflexivity|]. split; [reflexivity|].
  intros [|j] r' Hj Hl; [|lia]. injection Hl as <-. discriminate.
Defined.

(** *** The controller *)

(** A resource just created: no marker, no finalizer. *)
Lemma finalizer_before_business_witness :
  let r := Reconcile (runtime unreachable false) "t1" (world newborn) in
  fst r = (After (1 * Second), None)
  /\ sent (qbt (snd r)) = []
  /\ stored (snd r) = Some (with_Finalizers [TorrentFinalizer] newborn).
Proof.
  assert (Hm : ~ marked newborn) by discriminate.
  assert (Hf : ~ has_finalizer newborn) by apply not_elem_of_nil.
  destruct (finalizer_before_business (runtime unreachable false) "t1"
              (world newborn) newborn eq_refl eq_refl Hm Hf)
    as (_ & Hsent & _ & _ & _ & _ & _ & Hst & Hres).
  split_and!; assumption.
Defined.

(** A marked resource with an observed hash, the remote unreachable. *)
Lemma deletion_guard_witness :
  let r := Reconcile (runtime unreachable false) "t1" (world doomed) in
  fst r = (After (10 * Second), None)
  /\ GetFinalizers (obj (snd r)) = [TorrentFinalizer]
  /\ exists c, meta.FindStatusCondition
                 (Conditions (Status (obj (snd r)))) TypeDegradedTorrent
               = Some c
               /\ metav1.Status c = ConditionTrue
               /\ Reason c = "FailedToDeleteTorrent"
               /\ Message c = "failed to delete torrent: connection refused".
Proof.
  destruct (deletion_guard (runtime unreachable false) "t1"
              (world doomed) doomed eq_refl eq_refl) as [Hfail _].
  assert (Hm : marked doomed) by reflexivity.
  assert (Hh : v1alpha1.Hash (Status doomed) <> "") by discriminate.
  destruct (Hfail Hm Hh _ eq_refl) as (Hres & Hfin & _ & Hc & _).
  split_and!; assumption.
Defined.

(** A resource created without conditions, and one pass on it. *)
Lemma condition_exclusivity_witness :
  let w' := snd (Reconcile (runtime (answering 200 "200 OK" [] []) false)
                   "t1" (world created)) in
  exclusive (Conditions (Status (obj w')))
  /\ forall t', stored w' = Some t' -> exclusive (Conditions (Status t')).
Proof.
  assert (Hnew : reachable (world created)).
  { apply reach_created. intros t Ht. by injection Ht as <-. }
  destruct (condition_exclusivity
              (runtime (answering 200 "200 OK" [] []) false) "t1"
              (world created)) as (_ & Hreach & _).
  exact (Hreach Hnew).
Defined.

(** C4 as stated fails: the status write that records the Degraded
    condition is attempted and fails, as every store write of this
    runtime does, and the pass still returns its 10-second requeue
    without error; likewise the write that records Available after a
    sync, with the 30-second requeue. *)
Lemma persist_failure_swallowed_counterexample :
  let rt := runtime unreachable true in
  let r := Reconcile rt "t1" (world doomed) in
  let rt' := runtime (answering 200 "200 OK" []
                        [record "ABC123" "test" "downloading"]) true in
  let r' := Reconcile rt' "t1" (world settled) in
  (forall n o, WriteErr rt n o
               = Some (errorString "etcdserver: request timed out"))
  /\ nwrites (snd r) = 1%nat
  /\ fst r = (After (10 * Second), None)
  /\ nwrites (snd r') = 1%nat
  /\ fst r' = (After (30 * Second), None)
  /\ ~ (forall (rt : Runtime) (req : string) (w : World) (err : error),
          GetErr rt = None ->
          (forall n o, WriteErr rt n o = Some err) ->
          nwrites (snd (Reconcile rt req w)) <> nwrites w ->
          snd (fst (Reconcile rt req w)) = Some err).
Proof.
  cbv zeta. split_and!; [done|reflexivity..|].
  intros Hall.
  assert (H : snd (fst (Reconcile (runtime unreachable true) "t1"
                          (world doomed)))
              = Some (errorString "etcdserver: request timed out")).
  { apply Hall; [reflexivity|intros; reflexivity|].
    vm_compute. discriminate. }
  vm_compute in H. discriminate H.
Qed.

(** The same failing store: the finalizer Update is a hard failure, the
    Degraded status write is not. *)
Lemma persist_failure_outcomes_witness :
  let rt := runtime unreachable true in
  let r := Reconcile rt "t1" (world doomed) in
  let r' := Reconcile rt "t1" (world newborn) in
  fst r = (After (10 * Second), None)
  /\ nwrites (snd r) = 1%nat
  /\ fst r' = (Result0, Some (errorString "etcdserver: request timed out")).
Proof.
  cbv zeta.
  destruct (persist_failure_outcomes (runtime unreachable true) "t1"
              (world doomed) doomed eq_refl eq_refl)
    as (_ & _ & _ & Hlog & _).
  destruct (persist_failure_outcomes (runtime unreachable true) "t1"
              (world newborn) newborn eq_refl eq_refl) as (Hadd & _).
  assert (Hm : marked doomed) by reflexivity.
  assert (Hm' : ~ marked newborn) by discriminate.
  assert (Hf' : ~ has_finalizer newborn) by apply not_elem_of_nil.
  destruct Hlog as [H10 Hn]; [exact Hm|discriminate|discriminate|].
  split; [exact H10|]. split; [exact Hn|].
  exact (Hadd Hm' Hf' _ eq_refl).
Defined.

Lemma settled_pass_is_idempotent_witness :
  let rt := runtime (answering 200 "200 OK" []
                       [record "ABC123" "test" "downloading"]) false in
  let w1 := snd (Reconcile rt "t1" (world settled)) in
  let p2 := Reconcile rt "t1" w1 in
  exists t1,
    stored w1 = Some t1
    /\ updateTorrentStatus (record "ABC123" "test" "downloading")
         (fetched t1 w1) = (false, fetched t1 w1)
    /\ stored (snd p2) = stored w1
    /\ obj (snd p2) = t1
    /\ fst p2 = (After (30 * Second), None).
Proof.
  assert (Hm : ~ marked settled) by discriminate.
  assert (Hf : has_finalizer settled) by left.
  assert (Hfm : fields_match (Status settled)
                  (record "ABC123" "test" "downloading"))
    by (repeat split).
  exact (settled_pass_is_idempotent
           (runtime (answering 200 "200 OK" []
                       [record "ABC123" "test" "downloading"]) false)
           (runtime (answering 200 "200 OK" []
                       [record "ABC123" "test" "downloading"]) false)
           "t1" (world settled) settled
           "ABC123" (record "ABC123" "test" "downloading")
           eq_refl eq_refl eq_refl Hm Hf eq_refl Hfm eq_refl eq_refl
           (fun _ => eq_refl)).
Defined.

(** *** The scenarios of the specification *)

(** New resource, nothing on the remote: the torrent is added with the
    full URI, Available/TorrentAdded is recorded, requeue after 5 s. *)
Example scenario_new_resource :
  let r := Reconcile (runtime (answering 200 "200 OK" [] []) false) "t1"
             (world created) in
  fst r = (After (5 * Second), None)
  /\ map (fun q => (Method q, URL q, ReqBody q)) (sent (qbt (snd r)))
     = [("GET", "http://qbt:8080/api/v2/torrents/info", NoBody);
        ("POST", "http://qbt:8080/api/v2/torrents/add",
         MultipartBody [("urls", "magnet:?xt=urn:btih:ABC123&dn=test");
                        ("urls", "magnet:?xt=urn:btih:ABC123&dn=test")])]
  /\ (Conditions ∘ Status) <$> stored (snd r)
     = Some [{| Type_ := "Available"; metav1.Status := ConditionTrue;
                ObservedGeneration := 0; LastTransitionTime := 1000;
                Reason := "TorrentAdded";
                Message := "Torrent added to qBittorrent" |}].
Proof. repeat split. Qed.

(** Existing resource whose remote state went from downloading to
    uploading: the observed state follows, Available/TorrentActive is
    recorded, requeue after 30 s. *)
Example scenario_state_changed :
  let r := Reconcile
             (runtime (answering 200 "200 OK" []
                         [record "ABC123" "test" "uploading"]) false) "t1"
             (world settled) in
  fst r = (After (30 * Second), None)
  /\ (v1alpha1.State ∘ Status) <$> stored (snd r) = Some "uploading"
  /\ (Conditions ∘ Status) <$> stored (snd r)
     = Some [{| Type_ := "Available"; metav1.Status := ConditionTrue;
                ObservedGeneration := 0; LastTransitionTime := 1000;
                Reason := "TorrentActive";
                Message := "Torrent is active on qBittorrent" |}]
  /\ nwrites (snd r) = 2%nat.
Proof. repeat split. Qed.

(** Resource marked for deletion, stored hash, transport failure on
    delete: Degraded/FailedToDeleteTorrent, finalizer retained, requeue
    after 10 s. *)
Example scenario_delete_fails :
  let r := Reconcile (runtime unreachable false) "t1"
             (world doomed) in
  fst r = (After (10 * Second), None)
  /\ GetFinalizers <$> stored (snd r) = Some [TorrentFinalizer]
  /\ (Conditions ∘ Status) <$> stored (snd r)
     = Some [{| Type_ := "Degraded"; metav1.Status := ConditionTrue;
                ObservedGeneration := 0; LastTransitionTime := 1000;
                Reason := "FailedToDeleteTorrent";
                Message := "failed to delete torrent: connection refused" |}].
Proof. repeat split. Qed.

(** Deletion once the remote delete succeeds: the finalizer goes. *)
Example scenario_delete_succeeds :
  let r := Reconcile (runtime (answering 200 "200 OK" [] []) false) "t1"
             (world doomed) in
  fst r = (Result0, None)
  /\ GetFinalizers <$> stored (snd r) = Some [].
Proof. repeat split. Qed.

(** A Degraded resource that syncs again: Degraded is gone. *)
Example scenario_recovers :
  let r := Reconcile
             (runtime (answering 200 "200 OK" []
                         [record "ABC123" "test" "downloading"]) false) "t1"
             (world (resource None [TorrentFinalizer] "ABC123" "downloading"
                       [{| Type_ := "Degraded"; metav1.Status := ConditionTrue;
                           ObservedGeneration := 0; LastTransitionTime := 900;
                           Reason := "FailedToGetTorrentInfo";
                           Message := "unauthorized access to qbittorrent" |}])) in
  (Conditions ∘ Status) <$> stored (snd r)
  = Some [{| Type_ := "Available"; metav1.Status := ConditionTrue;
             ObservedGeneration := 0; LastTransitionTime := 1000;
             Reason := "TorrentActive";
             Message := "Torrent is active on qBittorrent" |}].
Proof. reflexivity. Qed.

End Concrete.

(** * Further properties *)

(** ** The client on the wire *)

Section ClientContracts.

Import http qbittorrent wire.

Variable remote : Remote.

Ltac run_call :=
  unfold GetTorrentsInfo, AddTorrent, DeleteTorrent, Login, PostForm, Do,
    NewRequest, SetContentType, AddCookie, Sprintf_t, list_request,
    add_request, delete_request, login_request, SID, StatusOK,
    StatusUnauthorized, bind, ret, get;
  simpl.

(** What the three authenticated calls put on the wire. *)
Lemma GetTorrentsInfo_sent (s : Conn) :
  sent (snd (GetTorrentsInfo remote s))
  = sent s ++ match ParseURL remote (URL (list_request (self s))) with
              | Some _ => []
              | None => [list_request (self s)]
              end.
Proof.
  run_call. destruct (ParseURL remote _); simpl; [by rewrite app_nil_r|].
  destruct (RoundTrip remote _ _) as [resp|]; simpl; [|done].
  destruct (StatusCode resp =? 200); simpl.
  - by destruct (DecodeTorrents remote _).
  - by destruct (StatusCode resp =? 401).
Qed.

Lemma AddTorrent_sent (magnetURI : string) (s : Conn) :
  sent (snd (AddTorrent remote magnetURI s))
  = sent s ++ match CreateFormFieldErr remote,
                    ParseURL remote (URL (add_request (self s) magnetURI)) with
              | None, None => [add_request (self s) magnetURI]
              | _, _ => []
              end.
Proof.
  run_call. destruct (CreateFormFieldErr remote); simpl;
    [by rewrite app_nil_r|].
  destruct (ParseURL remote _); simpl; [by rewrite app_nil_r|].
  destruct (RoundTrip remote _ _) as [resp|]; simpl; [|done].
  destruct (StatusCode resp =? 200); simpl; [done|].
  by destruct (StatusCode resp =? 401).
Qed.

Lemma DeleteTorrent_sent (hash : string) (deleteFiles : bool) (s : Conn) :
  sent (snd (DeleteTorrent remote hash deleteFiles s))
  = sent s ++ match ParseURL remote
                      (URL (delete_request (self s) hash deleteFiles)) with
              | Some _ => []
              | None => [delete_request (self s) hash deleteFiles]
              end.
Proof.
  run_call. destruct (ParseURL remote _); simpl; [by rewrite app_nil_r|].
  destruct (RoundTrip remote _ _) as [resp|]; simpl; [|done].
  destruct (StatusCode resp =? 200); simpl; [done|].
  by destruct (StatusCode resp =? 401).
Qed.

Lemma GetTorrentInfo_sent (hash : string) (s : Conn) :
  sent (snd (GetTorrentInfo remote hash s))
  = sent (snd (GetTorrentsInfo remote s)).
Proof.
  rewrite GetTorrentInfo_unfold.
  by destruct (GetTorrentsInfo remote s) as [[l [e|]] s'].
Qed.

Lemma GetTorrentInfo_self (hash : string) (s : Conn) :
  self (snd (GetTorrentInfo remote hash s)) = self s.
Proof.
  rewrite GetTorrentInfo_unfold.
  assert (H : self (snd (GetTorrentsInfo remote s)) = self s).
  { run_call. repeat case_match; done. }
  by destruct (GetTorrentsInfo remote s) as [[l [e|]] s'].
Qed.

Lemma AddTorrent_self (magnetURI : string) (s : Conn) :
  self (snd (AddTorrent remote magnetURI s)) = self s.
Proof. run_call. repeat case_match; done. Qed.

Lemma DeleteTorrent_self (hash : string) (deleteFiles : bool) (s : Conn) :
  self (snd (DeleteTorrent remote hash deleteFiles s)) = self s.
Proof. run_call. repeat case_match; done. Qed.

(** X1.  [GetTorrentsInfo] hands the transport exactly one request, the GET
    of [/api/v2/torrents/info] with the client's current session token as
    its only cookie (none when the URL does not parse).  It returns a list
    without error exactly when that request was answered with status 200
    and the body decoded to that list; a 401 answer is the error
    ["unauthorized access to qbittorrent"]; and with an error the list is
    empty. *)
Theorem GetTorrentsInfo_contract (s : Conn) :
  let r := GetTorrentsInfo remote s in
  let req := list_request (self s) in
  sent (snd r) = sent s ++ match ParseURL remote (URL req) with
                           | Some _ => []
                           | None => [req]
                           end
  /\ (forall l, fst r = (l, None) <->
        ParseURL remote (URL req) = None
        /\ exists resp, RoundTrip remote (sent s) req = inl resp
                        /\ StatusCode resp = 200
                        /\ DecodeTorrents remote (RespBody resp) = inl l)
  /\ (forall resp, ParseURL remote (URL req) = None ->
        RoundTrip remote (sent s) req = inl resp -> StatusCode resp = 401 ->
        fst r = ([], Some (errorString "unauthorized access to qbittorrent")))
  /\ (forall err, snd (fst r) = Some err -> fst (fst r) = []).
Proof.
  cbv zeta. split; [apply GetTorrentsInfo_sent|].
  run_call. destruct (ParseURL remote _) as [e|]; simpl.
  { split_and!; [|done|done]. intros l. split; [done|]. by intros [? _]. }
  destruct (RoundTrip remote _ _) as [resp|e]; simpl.
  2:{ split_and!; [|done|done]. intros l. split; [done|].
      by intros (_ & resp & ? & _). }
  destruct (Z.eqb_spec (StatusCode resp) 200) as [H200|H200]; simpl.
  - destruct (DecodeTorrents remote _) as [l0|e] eqn:Hd; simpl.
    + split_and!; [|intros ? _ [= <-]; lia|done].
      intros l. split.
      * intros [= <-]. split; [done|]. by exists resp.
      * intros (_ & resp' & [= <-] & _ & Hd'). rewrite Hd in Hd'.
        by injection Hd' as <-.
    + split_and!; [|intros ? _ [= <-]; lia|done].
      intros l. split; [done|].
      intros (_ & resp' & [= <-] & _ & Hd'). by rewrite Hd in Hd'.
  - destruct (Z.eqb_spec (StatusCode resp) 401) as [H401|H401]; simpl.
    + split_and!; [|done|done]. intros l. split; [done|].
      by intros (_ & resp' & [= <-] & ? & _).
    + split_and!; [|intros ? _ [= <-]; done|done]. intros l. split; [done|].
      by intros (_ & resp' & [= <-] & ? & _).
Qed.


(** X3.  [DeleteTorrent] hands the transport at most one request, the POST
    of [/api/v2/torrents/delete] with the form fields [hashes] and
    [deleteFiles] ("true" or "false") and the session cookie; it returns
    nil exactly when that request was sent and answered with status 200,
    and the unauthorized error on a 401. *)
Theorem DeleteTorrent_contract (hash : string) (deleteFiles : bool)
    (s : Conn) :
  let r := DeleteTorrent remote hash deleteFiles s in
  let req := delete_request (self s) hash deleteFiles in
  sent (snd r) = sent s ++ match ParseURL remote (URL req) with
                           | Some _ => []
                           | None => [req]
                           end
  /\ (fst r = None <->
        ParseURL remote (URL req) = None
        /\ exists resp, RoundTrip remote (sent s) req = inl resp
                        /\ StatusCode resp = 200)
  /\ (forall resp, ParseURL remote (URL req) = None ->
        RoundTrip remote (sent s) req = inl resp -> StatusCode resp = 401 ->
        fst r = Some (errorString "unauthorized access to qbittorrent")).
Proof.
  cbv zeta. split; [apply DeleteTorrent_sent|].
  run_call. destruct (ParseURL remote _) as [e|]; simpl.
  { split; [|done]. split; [done|]. by intros [? _]. }
  destruct (RoundTrip remote _ _) as [resp|e]; simpl.
  2:{ split; [|done]. split; [done|]. by intros (_ & resp & ? & _). }
  destruct (Z.eqb_spec (StatusCode resp) 200) as [H200|H200]; simpl.
  - split; [|intros ? _ [= <-]; lia]. split; [|done].
    intros _. split; [done|]. by exists resp.
  - destruct (Z.eqb_spec (StatusCode resp) 401) as [H401|H401]; simpl.
    + split; [|done]. split; [done|]. by intros (_ & resp' & [= <-] & ?).
    + split; [|intros ? _ [= <-]; done]. split; [done|].
      by intros (_ & resp' & [= <-] & ?).
Qed.

(** *** Login and NewClient *)

(** X4.  When the login request is answered with status 200 and the
    answer holds a cookie named [SID], the client's session token becomes
    the value of the first such cookie, later ones being ignored; Login
    returns nil exactly when that value is not empty; the base URL is
    untouched and the one request sent carries no cookie. *)
Theorem Login_first_SID_cookie (username password : string) (s : Conn)
    (resp : Response) (i : nat) (c : Cookie) :
  let req := login_request (self s) username password in
  let r := Login remote username password s in
  ParseURL remote (URL req) = None ->
  RoundTrip remote (sent s) req = inl resp ->
  StatusCode resp = 200 ->
  Cookies resp !! i = Some c -> http.Name c = "SID" ->
  (forall j c', (j < i)%nat -> Cookies resp !! j = Some c' ->
                http.Name c' <> "SID") ->
  self (snd r) = {| baseURL := baseURL (self s); sessionID := Value c |}
  /\ (fst r = None <-> Value c <> "")
  /\ sent (snd r) = sent s ++ [req].
Proof.
  cbv zeta. intros Hp Hr Hc Hi Hn Hmin.
  rewrite (Login_answered remote _ _ _ resp Hp Hr Hc). cbv zeta.
  rewrite (Login_cookies_first_SID _ _ i c Hi Hn Hmin). simpl.
  split; [done|]. split; [|done].
  by destruct (String.eqb_spec (Value c) "").
Qed.

(** X5.  Unless the login request is answered with status 200, Login
    returns an error and leaves the client, session token included, as it
    was. *)
Theorem Login_failure_keeps_session (username password : string) (s : Conn) :
  let r := Login remote username password s in
  (forall resp,
      RoundTrip remote (sent s) (login_request (self s) username password)
      = inl resp -> StatusCode resp <> 200) ->
  fst r <> None /\ self (snd r) = self s.
Proof.
  cbv zeta. intros Hno. revert Hno. run_call.
  destruct (ParseURL remote _); simpl; [done|].
  destruct (RoundTrip remote _ _) as [resp|e]; simpl; [|done].
  intros Hno. specialize (Hno resp eq_refl).
  destruct (Z.eqb_spec (StatusCode resp) 200); [done|]. done.
Qed.

(** What the cookie loop leaves behind: the client as it was when no
    cookie is named [SID], and else the value of one such cookie as the
    session token. *)
Lemma Login_cookies_result (cookies : list Cookie) (s : Conn) :
  (forall c, c ∈ cookies -> http.Name c <> "SID")
  /\ Login_cookies cookies s = (tt, s)
  \/ exists c, c ∈ cookies /\ http.Name c = "SID"
       /\ Login_cookies cookies s
          = (tt, set_self {| baseURL := baseURL (self s);
                             sessionID := Value c |} s).
Proof.
  induction cookies as [|x cs IH].
  - left. split; [|done]. intros c Hc. by apply not_elem_of_nil in Hc.
  - simpl. destruct (String.eqb_spec (http.Name x) "SID") as [Hx|Hx].
    + right. exists x. split_and!; [apply list_elem_of_here|done|done].
    + destruct IH as [[Hno Hrun]|(c & Hin & Hn & Hrun)].
      * left. split; [|done]. intros c Hc.
        apply elem_of_cons in Hc as [->|Hc]; [done|by apply Hno].
      * right. exists c. split_and!; [by apply list_elem_of_further|done..].
Qed.

(** X6.  On a client that holds no session token, a login answered with
    status 200 succeeds only through a cookie: Login returns nil exactly
    when the client holds a token afterwards, and then the answer holds a
    cookie named [SID] whose value is that token and is not empty; when
    no cookie of the answer is named [SID], Login returns the missing
    session error and the client is as it was. *)
Theorem Login_fresh_client_needs_cookie (username password : string)
    (s : Conn) (resp : Response) :
  let req := login_request (self s) username password in
  let r := Login remote username password s in
  sessionID (self s) = "" ->
  ParseURL remote (URL req) = None ->
  RoundTrip remote (sent s) req = inl resp ->
  StatusCode resp = 200 ->
  (fst r = None <-> sessionID (self (snd r)) <> "")
  /\ (fst r = None ->
      exists c, c ∈ Cookies resp /\ http.Name c = "SID" /\ Value c <> ""
                /\ sessionID (self (snd r)) = Value c)
  /\ ((forall c, c ∈ Cookies resp -> http.Name c <> "SID") ->
      fst r = Some (errorString
                      "failed to get session ID from qbittorrent response")
      /\ self (snd r) = self s).
Proof.
  cbv zeta. intros Hsid Hp Hr Hc.
  rewrite (Login_answered remote _ _ _ resp Hp Hr Hc). cbv zeta.
  unfold login_request.
  destruct (Login_cookies_result (Cookies resp)
              {| self := self s;
                 sent := sent s ++ [
                   {| Method := "POST";
                      URL := baseURL (self s) +:+ "/api/v2/auth/login";
                      ContentType := "application/x-www-form-urlencoded";
                      ReqCookies := [];
                      ReqBody := FormBody (Set_ (Set_ [] "username" username)
                                             "password" password) |}] |})
    as [[Hno Hrun]|(c & Hin & Hn & Hrun)]; rewrite Hrun; simpl.
  - rewrite Hsid. simpl. split_and!; [done|done|done].
  - destruct (String.eqb_spec (Value c) "") as [He|He]; simpl.
    + split_and!; [done|done|]. intros Hall. by destruct (Hall c Hin).
    + split_and!; [done| |].
      * intros _. by exists c.
      * intros Hall. by destruct (Hall c Hin).
Qed.

Lemma TrimSuffixSlash_app (u : string) : TrimSuffixSlash (u +:+ "/") = u.
Proof.
  induction u as [|a u IH]; [done|].
  change (String a u +:+ "/") with (String a (u +:+ "/")).
  destruct u as [|b u]; [done|].
  change (TrimSuffixSlash (String a (String b u +:+ "/")))
    with (String a (TrimSuffixSlash (String b u +:+ "/"))).
  by rewrite IH.
Qed.

Lemma TrimSuffixSlash_id (u : string) :
  (forall v, u <> v +:+ "/") -> TrimSuffixSlash u = u.
Proof.
  induction u as [|a u IH]; intros Hno; [done|].
  destruct u as [|b u].
  - simpl. destruct (Ascii.eqb_spec a "/") as [->|]; [|done].
    by destruct (Hno "").
  - change (TrimSuffixSlash (String a (String b u)))
      with (String a (TrimSuffixSlash (String b u))).
    rewrite IH; [done|]. intros v Hv. apply (Hno (String a v)).
    by rewrite Hv.
Qed.

(** X7.  [NewClient] starts without session token; it drops exactly one
    trailing slash of the base URL and leaves a base URL without trailing
    slash as it is. *)
Theorem NewClient_trims_one_slash (u : string) :
  sessionID (NewClient u) = ""
  /\ baseURL (NewClient (u +:+ "/")) = u
  /\ ((forall v, u <> v +:+ "/") -> baseURL (NewClient u) = u).
Proof.
  split; [done|]. split; [apply TrimSuffixSlash_app|apply TrimSuffixSlash_id].
Qed.

End ClientContracts.

(** ** The hash extractor, in full *)

Section HashCases.

Import strings.

Local Arguments String.append !_ _ : simpl nomatch.

Lemma HasPrefix_app_l (s t m : string) :
  HasPrefix s m = true -> HasPrefix (s +:+ t) m = true.
Proof.
  revert s. induction m as [|a m IH]; intros s H; [done|].
  destruct s as [|b s]; [done|]. simpl in *.
  apply andb_prop in H as [-> Hs]. by rewrite (IH _ Hs).
Qed.

Lemma app_nil_r_s (s : string) : s +:+ "" = s.
Proof. induction s as [|a s IH]; simpl; [done|]. by rewrite IH. Qed.

Lemma not_Contains_nil (m : string) : m <> "" -> ~ Contains "" m.
Proof.
  intros Hm (a & b & H). destruct a; [|done]. destruct m; done.
Qed.

(** The occurrence [IndexNat] finds is the first: none lies before it. *)
Lemma IndexNat_Some_first (s m : string) (n : nat) :
  m <> "" ->
  IndexNat s m = Some n ->
  exists a b, s = a +:+ m +:+ b /\ String.length a = n /\ ~ Contains a m.
Proof.
  intros Hm. revert n. induction s as [|x s IH]; intros n.
  - simpl. destruct (HasPrefix "" m) eqn:Hp; [|done].
    destruct m; [done|]. done.
  - rewrite IndexNat_cons.
    destruct (HasPrefix (String x s) m) eqn:Hp.
    + intros [= <-]. destruct (HasPrefix_split _ _ Hp) as [b Hb].
      exists "", b. split_and!; [done|done|by apply not_Contains_nil].
    + destruct (IndexNat s m) as [k|] eqn:Hk; [|done].
      intros [= <-]. destruct (IH k eq_refl) as (a & b & -> & <- & Hno).
      exists (String x a), b. split_and!; [done|done|].
      apply IndexNat_None. rewrite IndexNat_cons.
      apply IndexNat_None in Hno. rewrite Hno.
      destruct (HasPrefix (String x a) m) eqn:Hp'; [|done].
      apply (HasPrefix_app_l _ (m +:+ b)) in Hp'.
      change (String x a +:+ m +:+ b) with (String x (a +:+ m +:+ b)) in Hp'.
      congruence.
Qed.

(** X8.  What [GetTorrentHash] returns, in both directions.  A result
    without error is the text between the first ["btih:"] of the input and
    the first ["&"] after it, or the end of the input: it contains no
    ["&"], and it is empty only when an ["&"] follows the marker at once.
    A result with an error has the empty string for a hash, and the input
    holds no marker or ends with its first marker. *)
Theorem GetTorrentHash_cases (magnetURI : string) :
  match GetTorrentHash magnetURI with
  | (hash, None) =>
      exists a rest,
        magnetURI = a +:+ "btih:" +:+ hash +:+ rest
        /\ ~ Contains a "btih:"
        /\ ~ Contains hash "&"
        /\ (rest = "" /\ hash <> "" \/ exists r, rest = "&" +:+ r)
  | (hash, Some _) =>
      hash = ""
      /\ (~ Contains magnetURI "btih:"
          \/ exists a, magnetURI = a +:+ "btih:" /\ ~ Contains a "btih:")
  end.
Proof.
  destruct (IndexNat magnetURI "btih:") as [n|] eqn:Hn.
  2:{ unfold GetTorrentHash, Index. rewrite Hn. simpl.
      split; [done|]. left. by apply IndexNat_None. }
  apply IndexNat_Some_first in Hn as (a & rest & -> & _ & Ha); [|done].
  rewrite (GetTorrentHash_after_marker _ _ Ha).
  destruct rest as [|c rest].
  { simpl. split; [done|]. right. by exists a. }
  change (String.eqb (String c rest) "") with false. cbv iota.
  destruct (IndexNat (String c rest) "&") as [k|] eqn:Hk.
  - apply IndexNat_Some_first in Hk as (h & r & Hr & <- & Hh); [|done].
    rewrite Hr, take_app. exists a, ("&" +:+ r). split_and!; [done..|].
    right. by exists r.
  - exists a, "". rewrite app_nil_r_s. split_and!; [done|done| |].
    + by apply IndexNat_None.
    + by left.
Qed.

(** X9.  [GetTorrentHash] never slices out of range: whenever it returns
    without error, the start it slices from lies strictly inside the input,
    so [magnetURI[hashStart:]] is a legal slice, and when an ["&"] is found
    the end [hashStart+hashEnd] lies within the input and not before the
    start, so [magnetURI[hashStart:hashStart+hashEnd]] is legal too. *)
Theorem GetTorrentHash_slices_in_range (magnetURI : string) :
  let hashStart := Index magnetURI "btih:" + 5 in
  let hashEnd := Index (slice_from magnetURI hashStart) "&" in
  snd (GetTorrentHash magnetURI) = None ->
  hashStart < len magnetURI
  /\ slice_in_range magnetURI hashStart (len magnetURI)
  /\ (hashEnd <> -1 ->
      slice_in_range magnetURI hashStart (hashStart + hashEnd)).
Proof.
  cbv zeta. intros Hok.
  assert (Hg : Index magnetURI "btih:" <> -1
               /\ Index magnetURI "btih:" + 5 < len magnetURI).
  { revert Hok. unfold GetTorrentHash.
    destruct (Z.eqb_spec (Index magnetURI "btih:") (-1)); [done|].
    destruct (Z.geb_spec (Index magnetURI "btih:" + 5) (len magnetURI));
      [done|]. intros _. split; [done|lia]. }
  destruct Hg as [H1 H2]. split; [done|].
  exact (GetTorrentHash_in_range magnetURI H1 H2).
Qed.

End HashCases.

(** ** One pass, every branch *)

Section PassFacts.

Import metav1 v1alpha1 controller props wire.

Variable rt : Runtime.

Local Arguments setDegradedCondition : simpl never.
Local Arguments setAvailableCondition : simpl never.
Local Arguments updateTorrentStatus : simpl never.
Local Arguments handleDeletion : simpl never.
Local Arguments reconcile : simpl never.
Local Arguments GetTorrentHash : simpl never.
Local Arguments qbittorrent.DeleteTorrent : simpl never.
Local Arguments qbittorrent.AddTorrent : simpl never.
Local Arguments qbittorrent.GetTorrentInfo : simpl never.
Local Arguments degraded : simpl never.
Local Arguments available : simpl never.
Local Arguments persist_logged : simpl never.
Local Arguments controllerutil.RemoveFinalizer : simpl never.

(** What a client call leaves of the connection, given its outcome. *)
Lemma after_GetTorrentInfo (hash : string) (c0 c : qbittorrent.Conn) x :
  qbittorrent.GetTorrentInfo (remote rt) hash c0 = (x, c) ->
  qbittorrent.self c = qbittorrent.self c0
  /\ qbittorrent.sent c
     = qbittorrent.sent c0
       ++ match qbittorrent.ParseURL (remote rt)
                  (http.URL (list_request (qbittorrent.self c0))) with
          | Some _ => []
          | None => [list_request (qbittorrent.self c0)]
          end.
Proof.
  intros H.
  pose proof (GetTorrentInfo_self (remote rt) hash c0) as H1.
  pose proof (GetTorrentInfo_sent (remote rt) hash c0) as H2.
  rewrite GetTorrentsInfo_sent in H2. rewrite H in H1, H2. done.
Qed.

Lemma after_AddTorrent (uri : string) (c0 c : qbittorrent.Conn) x :
  qbittorrent.AddTorrent (remote rt) uri c0 = (x, c) ->
  qbittorrent.self c = qbittorrent.self c0
  /\ qbittorrent.sent c
     = qbittorrent.sent c0
       ++ match qbittorrent.CreateFormFieldErr (remote rt),
                qbittorrent.ParseURL (remote rt)
                  (http.URL (add_request (qbittorrent.self c0) uri)) with
          | None, None => [add_request (qbittorrent.self c0) uri]
          | _, _ => []
          end.
Proof.
  intros H.
  pose proof (AddTorrent_self (remote rt) uri c0) as H1.
  pose proof (AddTorrent_sent (remote rt) uri c0) as H2.
  rewrite H in H1, H2. done.
Qed.

Lemma after_DeleteTorrent (hash : string) (b : bool)
    (c0 c : qbittorrent.Conn) x :
  qbittorrent.DeleteTorrent (remote rt) hash b c0 = (x, c) ->
  qbittorrent.self c = qbittorrent.self c0
  /\ qbittorrent.sent c
     = qbittorrent.sent c0
       ++ match qbittorrent.ParseURL (remote rt)
                  (http.URL (delete_request (qbittorrent.self c0) hash b)) with
          | Some _ => []
          | None => [delete_request (qbittorrent.self c0) hash b]
          end.
Proof.
  intros H.
  pose proof (DeleteTorrent_self (remote rt) hash b c0) as H1.
  pose proof (DeleteTorrent_sent (remote rt) hash b c0) as H2.
  rewrite H in H1, H2. done.
Qed.

(** Split a pass into its branches: the read failed; no resource; then, on
    the resource [t] the store holds, the sync branches, the finalizer
    branch and the deletion branches. *)
Ltac pass_cases req w :=
  let t := fresh "t" in
  destruct (GetErr rt) as [?gerr|] eqn:Hg;
  [ rewrite (Reconcile_get_failed rt req w _ Hg)
  | destruct (stored w) as [t|] eqn:Hs;
    [ destruct (IsZeroPtr (DeletionTimestamp (ObjectMeta t))) eqn:Hm;
      [ assert (Hnm : ~ marked t) by (unfold marked; congruence);
        destruct (decide (TorrentFinalizer ∈ GetFinalizers t)) as [Hf|Hf];
        [ rewrite (Reconcile_sync rt req w t Hg Hs Hnm Hf),
            (reconcile_run rt t w Hs);
          destruct (GetTorrentHash (MagnetURI (Spec t)))
            as [?hash [?herr|]] eqn:Hh;
          [ | destruct (qbittorrent.GetTorrentInfo (remote rt) _ (qbt w))
                as [[[?r0|] [?ierr|]] ?c] eqn:Hi;
              pose proof (after_GetTorrentInfo _ _ _ _ Hi) as [Hself Hsent];
              [ | destruct (fields_eqb (Status t) _) eqn:Hfe;
                  [ | cbv zeta;
                      destruct (WriteErr rt (nwrites w)
                                  (with_Status (synced (Status t) _) t))
                        as [?werr|] eqn:Hw ]
                |
                | destruct (qbittorrent.AddTorrent (remote rt)
                              (MagnetURI (Spec t)) _)
                    as [[?aerr|] ?c'] eqn:Ha;
                  pose proof (after_AddTorrent _ _ _ _ Ha) as [Hself' Hsent'] ] ]
        | rewrite (Reconcile_fresh rt req w t Hg Hs Hnm Hf); cbv zeta;
          destruct (WriteErr rt (nwrites w) _) as [?werr|] eqn:Hw ]
      | rewrite (Reconcile_marked rt req w t Hg Hs Hm),
          (handleDeletion_run rt t w Hs);
        destruct (String.eqb_spec (Hash (Status t)) "") as [Hh|Hh];
        cbn [negb];
        [ cbv zeta;
          destruct (WriteErr rt (nwrites w) _) as [?werr|] eqn:Hw
        | destruct (qbittorrent.DeleteTorrent (remote rt) _ true (qbt w))
            as [[?derr|] ?c] eqn:Hd;
          pose proof (after_DeleteTorrent _ _ _ _ _ Hd) as [Hself Hsent];
          [ | cbv zeta;
              destruct (WriteErr rt (nwrites w) _) as [?werr|] eqn:Hw ] ] ]
    | rewrite (Reconcile_no_resource rt req w Hg Hs) ] ].

(** X12.  Whatever happens in a pass, it never sets [Requeue]; the delay
    it asks for is none, 1 s, 5 s, 10 s or 30 s; and when it returns an
    error it asks for no delay at all. *)
Theorem Reconcile_delays (req : string) (w : World) :
  let res := fst (fst (Reconcile rt req w)) in
  let err := snd (fst (Reconcile rt req w)) in
  Requeue res = false
  /\ RequeueAfter res ∈ delays
  /\ (err <> None -> res = Result0).
Proof.
  cbv zeta. unfold delays.
  pass_cases req w; cbn;
    (split_and!;
       [done
       |solve [repeat first [apply list_elem_of_here
                             |apply list_elem_of_further]]
       |done]).
Qed.

(** X13.  A pass writes finalizers and status only: the spec (the magnet
    URI), the name and the deletion marker of the stored resource are
    after the pass what they were before it. *)
Theorem Reconcile_keeps_spec_and_identity (req : string) (w : World)
    (t t' : Torrent) :
  stored w = Some t ->
  stored (snd (Reconcile rt req w)) = Some t' ->
  Spec t' = Spec t
  /\ metav1.Name (ObjectMeta t') = metav1.Name (ObjectMeta t)
  /\ DeletionTimestamp (ObjectMeta t') = DeletionTimestamp (ObjectMeta t).
Proof.
  pass_cases req w; cbn; rewrite ?persist_logged_stored; cbn;
    rewrite ?Hs; intros; repeat case_match; by simplify_eq.
Qed.

(** X14.  A pass never logs in and never touches the client: base URL and
    session token are after the pass what they were before it.  It hands
    the transport at most two requests and attempts at most two store
    writes. *)
Theorem Reconcile_budget (req : string) (w : World) :
  let w' := snd (Reconcile rt req w) in
  qbittorrent.self (qbt w') = qbittorrent.self (qbt w)
  /\ (exists reqs, qbittorrent.sent (qbt w') = qbittorrent.sent (qbt w) ++ reqs
                   /\ (length reqs <= 2)%nat)
  /\ (nwrites w <= nwrites w' <= nwrites w + 2)%nat.
Proof.
  cbv zeta.
  pass_cases req w; cbn;
    rewrite ?persist_logged_qbt, ?persist_logged_nwrites; cbn;
    (split_and!; [congruence| |lia|lia]);
    rewrite ?Hsent', ?Hsent, <- ?app_assoc;
    try (eexists; split; [reflexivity|];
         rewrite ?length_app; repeat case_match; cbn; lia);
    (exists []; split; [by rewrite app_nil_r|cbn; lia]).
Qed.

(** X15.  The observed fields of the stored status (hash, name, state,
    sizes, path, times) change in a pass only on the sync path: the
    resource is unmarked and carries the finalizer, its magnet URI yields a
    hash, the remote record for that hash was found and differed, and after
    the pass the stored fields are that record's.  Deletion, finalizer
    registration and every failure leave them alone. *)
Theorem observed_fields_change_only_on_sync (req : string) (w : World)
    (t t' : Torrent) :
  stored w = Some t ->
  stored (snd (Reconcile rt req w)) = Some t' ->
  observed (Status t') <> observed (Status t) ->
  ~ marked t /\ has_finalizer t
  /\ exists hash r0,
      GetTorrentHash (MagnetURI (Spec t)) = (hash, None)
      /\ fst (qbittorrent.GetTorrentInfo (remote rt) hash (qbt w))
         = (Some r0, None)
      /\ ~ fields_match (Status t) r0
      /\ fields_match (Status t') r0.
Proof.
  pass_cases req w; cbn; rewrite ?persist_logged_stored; cbn;
    rewrite ?Hs; intros H1 H2 H3; repeat case_match; simplify_eq;
    try (by destruct H3);
    (split_and!; [done..|]); eexists _, _; rewrite Hi;
    (split_and!; [done|done| |by repeat split]);
    intros Hfm%fields_eqb_match; congruence.
Qed.

(** X10.  When the resource cannot be fetched, because the read fails or
    because the store holds no such resource, the pass does nothing: no
    request, no store write, the store as it was.  A missing resource and
    a not-found read error are a success without requeue; any other read
    error is returned as it is. *)
Theorem Reconcile_nothing_fetched (req : string) (w : World) :
  GetErr rt <> None \/ stored w = None ->
  let r := Reconcile rt req w in
  qbt (snd r) = qbt w /\ stored (snd r) = stored w
  /\ nwrites (snd r) = nwrites w
  /\ fst r = (Result0,
              match GetErr rt with
              | Some err => if IsNotFound err then None else Some err
              | None => None
              end).
Proof.
  intros H. cbv zeta. destruct (GetErr rt) as [err|] eqn:Hg.
  - by rewrite (Reconcile_get_failed rt req w err Hg).
  - destruct H as [?|Hs]; [done|].
    by rewrite (Reconcile_no_resource rt req w Hg Hs).
Qed.

(** X11.  A magnet URI from which no hash can be extracted is a hard
    failure of the pass: the extractor's error is returned without
    requeue, nothing is sent to the remote service, nothing is written,
    and no condition is recorded. *)
Theorem Reconcile_malformed_uri (req : string) (w : World) (t : Torrent)
    (hash : string) (err : error) :
  GetErr rt = None ->
  stored w = Some t ->
  ~ marked t -> has_finalizer t ->
  GetTorrentHash (MagnetURI (Spec t)) = (hash, Some err) ->
  let r := Reconcile rt req w in
  fst r = (Result0, Some err)
  /\ qbt (snd r) = qbt w /\ stored (snd r) = Some t
  /\ nwrites (snd r) = nwrites w /\ obj (snd r) = t.
Proof.
  intros Hg Hs Hm Hf Hh. cbv zeta.
  rewrite (Reconcile_sync rt req w t Hg Hs Hm Hf), (reconcile_run rt t w Hs), Hh.
  by cbn.
Qed.

(** *** What goes on the wire *)

(** X16.  On a resource marked for deletion the pass hands the transport
    nothing when the observed hash is empty, and otherwise exactly the
    delete request for the observed hash (not for a hash derived from the
    magnet URI) with [deleteFiles] true and the session cookie. *)
Theorem deletion_sends_one_delete (req : string) (w : World) (t : Torrent) :
  GetErr rt = None ->
  stored w = Some t ->
  marked t ->
  let dreq := delete_request (qbittorrent.self (qbt w)) (Hash (Status t)) true in
  qbittorrent.sent (qbt (snd (Reconcile rt req w)))
  = qbittorrent.sent (qbt w)
    ++ (if String.eqb (Hash (Status t)) "" then []
        else match qbittorrent.ParseURL (remote rt) (http.URL dreq) with
             | Some _ => []
             | None => [dreq]
             end).
Proof.
  intros Hg Hs Hm. cbv zeta.
  rewrite (Reconcile_marked rt req w t Hg Hs Hm), (handleDeletion_run rt t w Hs).
  destruct (String.eqb_spec (Hash (Status t)) "") as [Hh|Hh]; cbn [negb].
  - cbv zeta. destruct (WriteErr rt _ _); cbn; by rewrite app_nil_r.
  - destruct (qbittorrent.DeleteTorrent _ _ _ _) as [[derr|] c] eqn:Hd;
      pose proof (after_DeleteTorrent _ _ _ _ _ Hd) as [_ Hsent].
    + cbn. by rewrite persist_logged_qbt.
    + cbv zeta. by destruct (WriteErr rt _ _).
Qed.


(** *** What each branch leaves in store and object *)

Lemma found_has_hash (hash : string) (c : qbittorrent.Conn)
    (r : qbittorrent.TorrentInfo) :
  fst (qbittorrent.GetTorrentInfo (remote rt) hash c) = (Some r, None) ->
  qbittorrent.Hash r = hash.
Proof.
  rewrite GetTorrentInfo_unfold.
  destruct (qbittorrent.GetTorrentsInfo (remote rt) c) as [[l [e|]] c']; cbn;
    [done|].
  intros [= H]. apply GetTorrentInfo_scan_Some in H as (i & _ & Hr & _). done.
Qed.

Lemma persist_logged_ok (t' : Torrent) (w0 : World) :
  WriteErr rt (nwrites w0) t' = None -> persist_logged rt t' w0 = written t' w0.
Proof. intros H. unfold persist_logged. by rewrite H. Qed.

(** X18.  Sync of a torrent the remote service knows, the store accepting
    the writes: the pass returns the 30-second requeue without error; the
    stored status then carries the remote record's fields, its hash being
    the one extracted from the magnet URI, with an Available condition of
    status True, reason [TorrentActive], and no Degraded condition;
    metadata and spec are as fetched. *)
Theorem sync_found_outcome (req : string) (w : World) (t : Torrent)
    (hash : string) (r : qbittorrent.TorrentInfo) :
  GetErr rt = None ->
  stored w = Some t ->
  ~ marked t -> has_finalizer t ->
  GetTorrentHash (MagnetURI (Spec t)) = (hash, None) ->
  fst (qbittorrent.GetTorrentInfo (remote rt) hash (qbt w)) = (Some r, None) ->
  (forall n o, WriteErr rt n o = None) ->
  let p := Reconcile rt req w in
  fst p = (After (30 * Second), None)
  /\ exists t',
       stored (snd p) = Some t' /\ obj (snd p) = t'
       /\ fields_match (Status t') r /\ Hash (Status t') = hash
       /\ (exists c, meta.FindStatusCondition (Conditions (Status t'))
                       TypeAvailableTorrent = Some c
                     /\ metav1.Status c = ConditionTrue
                     /\ Reason c = "TorrentActive"
                     /\ Message c = "Torrent is active on qBittorrent")
       /\ absent (Conditions (Status t')) TypeDegradedTorrent
       /\ ObjectMeta t' = ObjectMeta t /\ Spec t' = Spec t.
Proof.
  intros Hg Hs Hm Hf Hh Hi Hw. cbv zeta.
  pose proof (found_has_hash _ _ _ Hi) as Hrh.
  rewrite (Reconcile_sync rt req w t Hg Hs Hm Hf), (reconcile_run rt t w Hs), Hh.
  destruct (qbittorrent.GetTorrentInfo (remote rt) hash (qbt w))
    as [[i e] c]. cbn in Hi. injection Hi as -> ->.
  destruct (fields_eqb (Status t) r) eqn:Hfe.
  - apply fields_eqb_match in Hfe.
    rewrite persist_logged_ok by apply Hw. cbn. split; [done|].
    eexists. split; [reflexivity|]. split; [done|].
    destruct (available_spec rt "TorrentActive"
                "Torrent is active on qBittorrent" t) as (Hc & Ha & _).
    split_and!; [exact Hfe| |done..].
    destruct Hfe as (Hhash & _).
    change (Hash (Status t) = hash). congruence.
  - cbv zeta. rewrite Hw, persist_logged_ok by apply Hw. cbn.
    split; [done|]. eexists. split; [reflexivity|]. split; [done|].
    destruct (available_spec rt "TorrentActive"
                "Torrent is active on qBittorrent"
                (with_Status (synced (Status t) r) t)) as (Hc & Ha & _).
    split_and!; [by repeat split|done..].
Qed.

(** X19.  Sync of a torrent the remote service does not know yet, the add
    succeeding: the pass returns the 5-second requeue without error; the
    object carries Available=True with reason [TorrentAdded] and no
    Degraded condition, its observed fields are untouched (they are filled
    by a later pass), and the store holds the object when the status write
    succeeded and the fetched resource when it failed. *)
Theorem sync_added_outcome (req : string) (w : World) (t : Torrent)
    (hash : string) :
  GetErr rt = None ->
  stored w = Some t ->
  ~ marked t -> has_finalizer t ->
  GetTorrentHash (MagnetURI (Spec t)) = (hash, None) ->
  let looked := qbittorrent.GetTorrentInfo (remote rt) hash (qbt w) in
  fst looked = (None, None) ->
  fst (qbittorrent.AddTorrent (remote rt) (MagnetURI (Spec t)) (snd looked))
  = None ->
  let p := Reconcile rt req w in
  fst p = (After (5 * Second), None)
  /\ observed (Status (obj (snd p))) = observed (Status t)
  /\ (exists c, meta.FindStatusCondition (Conditions (Status (obj (snd p))))
                  TypeAvailableTorrent = Some c
                /\ metav1.Status c = ConditionTrue
                /\ Reason c = "TorrentAdded"
                /\ Message c = "Torrent added to qBittorrent")
  /\ absent (Conditions (Status (obj (snd p)))) TypeDegradedTorrent
  /\ stored (snd p)
     = Some (match WriteErr rt (nwrites w) (obj (snd p)) with
             | Some _ => t
             | None => obj (snd p)
             end).
Proof.
  intros Hg Hs Hm Hf Hh. cbv zeta. intros Hi Ha.
  rewrite (Reconcile_sync rt req w t Hg Hs Hm Hf), (reconcile_run rt t w Hs), Hh.
  destruct (qbittorrent.GetTorrentInfo (remote rt) hash (qbt w))
    as [[i e] c]. cbn in Hi, Ha. injection Hi as -> ->.
  destruct (qbittorrent.AddTorrent _ _ _) as [a c']. cbn in Ha. subst a.
  cbn. rewrite persist_logged_obj, persist_logged_stored. cbn.
  destruct (available_spec rt "TorrentAdded" "Torrent added to qBittorrent" t)
    as (Hc & Hab & _).
  split_and!; [done|done|done|done|].
  rewrite Hs. by destruct (WriteErr rt _ _).
Qed.

(** X20.  A remote failure on the sync path, be it the lookup or the add
    after a lookup that found nothing: the pass returns the 10-second
    requeue without error; the object carries Degraded=True with reason
    [FailedToGetTorrentInfo] or [FailedToAddTorrent] and the failed call's
    error text as message, no Available condition, and its observed fields
    and finalizers are as fetched. *)
Theorem sync_remote_failure (req : string) (w : World) (t : Torrent)
    (hash reason : string) (err : error) :
  GetErr rt = None ->
  stored w = Some t ->
  ~ marked t -> has_finalizer t ->
  GetTorrentHash (MagnetURI (Spec t)) = (hash, None) ->
  let looked := qbittorrent.GetTorrentInfo (remote rt) hash (qbt w) in
  (snd (fst looked) = Some err /\ reason = "FailedToGetTorrentInfo")
  \/ (fst looked = (None, None)
      /\ fst (qbittorrent.AddTorrent (remote rt) (MagnetURI (Spec t))
                (snd looked)) = Some err
      /\ reason = "FailedToAddTorrent") ->
  let p := Reconcile rt req w in
  fst p = (After (10 * Second), None)
  /\ (exists c, meta.FindStatusCondition (Conditions (Status (obj (snd p))))
                  TypeDegradedTorrent = Some c
                /\ metav1.Status c = ConditionTrue
                /\ Reason c = reason /\ Message c = Error err)
  /\ absent (Conditions (Status (obj (snd p)))) TypeAvailableTorrent
  /\ observed (Status (obj (snd p))) = observed (Status t)
  /\ GetFinalizers (obj (snd p)) = GetFinalizers t.
Proof.
  intros Hg Hs Hm Hf Hh. cbv zeta. intros Hfail.
  rewrite (Reconcile_sync rt req w t Hg Hs Hm Hf), (reconcile_run rt t w Hs), Hh.
  destruct (qbittorrent.GetTorrentInfo (remote rt) hash (qbt w))
    as [[i e] c]. cbn in Hfail.
  destruct Hfail as [[-> ->]|(Hi & Ha & ->)].
  - destruct i; cbn; rewrite persist_logged_obj;
      destruct (degraded_spec rt "FailedToGetTorrentInfo" (Error err) t)
        as (Hc & Hab & _); done.
  - injection Hi as -> ->.
    destruct (qbittorrent.AddTorrent _ _ _) as [a c']. cbn in Ha. subst a.
    cbn. rewrite persist_logged_obj.
    destruct (degraded_spec rt "FailedToAddTorrent" (Error err) t)
      as (Hc & Hab & _); done.
Qed.

Lemma remove_elem_of (f : list string) (x y : string) :
  y ∈ controllerutil.remove f x <-> y ∈ f /\ y <> x.
Proof.
  induction f as [|e f IH]; simpl.
  - split; [by intros ?%not_elem_of_nil|by intros [?%not_elem_of_nil _]].
  - destruct (String.eqb_spec e x) as [->|Hne].
    + rewrite IH. split; [intros [? ?]; split; [by right|done]|].
      intros [[->|?]%elem_of_cons ?]; done.
    + rewrite elem_of_cons, IH, elem_of_cons. split.
      * intros [->|[? ?]]; [split; [by left|done]|split; [by right|done]].
      * intros [[->|?] ?]; [by left|by right].
Qed.


(** *** The diff and the setters *)

(** X22.  [updateTorrentStatus] makes the eight observed fields of the
    object equal to the remote record's and touches nothing else:
    conditions, metadata, spec, store and client are as before.  It
    reports an update exactly when some field differed; when none did, the
    world is unchanged; and run again on its own result it reports no
    update. *)
Theorem updateTorrentStatus_syncs (r : qbittorrent.TorrentInfo) (w : World) :
  let u := fst (updateTorrentStatus r w) in
  let w' := snd (updateTorrentStatus r w) in
  fields_match (Status (obj w')) r
  /\ Conditions (Status (obj w')) = Conditions (Status (obj w))
  /\ ObjectMeta (obj w') = ObjectMeta (obj w) /\ Spec (obj w') = Spec (obj w)
  /\ stored w' = stored w /\ qbt w' = qbt w /\ nwrites w' = nwrites w
  /\ (u = true <-> ~ fields_match (Status (obj w)) r)
  /\ (u = false -> w' = w)
  /\ fst (updateTorrentStatus r w') = false.
Proof.
  cbv zeta. rewrite !updateTorrentStatus_run. cbn.
  split_and!; try done.
  - rewrite <- fields_eqb_match. by destruct (fields_eqb _ _).
  - intros Hu. assert (Hfm : fields_match (Status (obj w)) r).
    { apply fields_eqb_match. by destruct (fields_eqb _ _). }
    rewrite (synced_match _ _ Hfm), with_Status_same. by destruct w.
  - assert (Hfm : fields_match (synced (Status (obj w)) r) r)
      by (by repeat split).
    apply fields_eqb_match in Hfm. by rewrite Hfm.
Qed.

(** X23.  Setting Available on an object that already holds Available with
    status True replaces reason and message but keeps the condition's
    transition time, whatever the clock reads: the time records when the
    status last changed, not when it was last confirmed. *)
Theorem setAvailableCondition_keeps_transition_time
    (reason message : string) (w : World) (c : Condition) :
  meta.FindStatusCondition (Conditions (Status (obj w))) TypeAvailableTorrent
  = Some c ->
  metav1.Status c = ConditionTrue ->
  exists c',
    meta.FindStatusCondition
      (Conditions (Status (obj (snd (setAvailableCondition rt reason message w)))))
      TypeAvailableTorrent = Some c'
    /\ LastTransitionTime c' = LastTransitionTime c
    /\ metav1.Status c' = ConditionTrue
    /\ Reason c' = reason /\ Message c' = message.
Proof.
  intros Hfind Hst. rewrite setAvailableCondition_run. cbn [snd].
  change (obj (set_obj ?x _)) with x. unfold available. cbn.
  rewrite Find_Remove_ne by done.
  unfold meta.SetStatusCondition. cbn [Type_ AvailableCondition].
  rewrite Hfind.
  rewrite (Find_update_first _ _
             (fun existing => meta.merge (Now rt 1) existing
                                (AvailableCondition rt reason message))
             c) by done.
  eexists. split; [reflexivity|]. unfold meta.merge. cbn. by rewrite Hst.
Qed.

(** *** The conditions as a whole *)

(** The conditions a pass leaves in the store are the fetched ones, or
    what one of the setters makes of them. *)
Lemma pass_conditions_from (req : string) (w : World) (t t' : Torrent)
    (P : list Condition -> Prop) :
  stored w = Some t ->
  stored (snd (Reconcile rt req w)) = Some t' ->
  P (Conditions (Status t)) ->
  (forall reason message t0,
      Conditions (Status t0) = Conditions (Status t) ->
      P (Conditions (Status (degraded rt reason message t0)))) ->
  (forall reason message t0,
      Conditions (Status t0) = Conditions (Status t) ->
      P (Conditions (Status (available rt reason message t0)))) ->
  P (Conditions (Status t')).
Proof.
  pass_cases req w; cbn; rewrite ?persist_logged_stored; cbn;
    rewrite ?Hs; intros H1 H2 H3 Hdeg Hav; repeat case_match; simplify_eq;
    first [exact H3 | by apply Hdeg | by apply Hav].
Qed.

Lemma setters_single_verdict (reason message : string) (t0 : Torrent) :
  single_verdict (Conditions (Status t0)) ->
  single_verdict (Conditions (Status (degraded rt reason message t0)))
  /\ single_verdict (Conditions (Status (available rt reason message t0))).
Proof.
  unfold degraded, available, single_verdict, meta.SetStatusCondition,
    DegradedCondition, AvailableCondition. cbn.
  intros [->|(c & -> & Hst & [Hty|Hty])]; cbn; rewrite ?Hty; cbn;
    destruct (IsZero (Now rt 0)); cbn; rewrite ?Hty; cbn;
    (split; right; eexists; (split; [reflexivity|]); cbn; auto).
Qed.

End PassFacts.

(** ** Passes in sequence *)

Section Sequences.

Import metav1 v1alpha1 controller props wire.

Local Arguments GetTorrentHash : simpl never.
Local Arguments qbittorrent.DeleteTorrent : simpl never.
Local Arguments qbittorrent.AddTorrent : simpl never.
Local Arguments qbittorrent.GetTorrentInfo : simpl never.
Local Arguments degraded : simpl never.
Local Arguments available : simpl never.
Local Arguments persist_logged : simpl never.
Local Arguments controllerutil.RemoveFinalizer : simpl never.

Lemma pass_keeps_no_resource (rt : Runtime) (req : string) (w : World) :
  stored w = None -> stored (snd (Reconcile rt req w)) = None.
Proof.
  intros Hs. destruct (GetErr rt) as [err|] eqn:Hg.
  - by rewrite (Reconcile_get_failed rt req w err Hg).
  - by rewrite (Reconcile_no_resource rt req w Hg Hs).
Qed.

Lemma pass_single_verdict (rt : Runtime) (req : string) (w : World) :
  (forall t, stored w = Some t -> single_verdict (Conditions (Status t))) ->
  forall t', stored (snd (Reconcile rt req w)) = Some t' ->
             single_verdict (Conditions (Status t')).
Proof.
  intros Hinv t' Ht'. destruct (stored w) as [t|] eqn:Hs.
  - apply (pass_conditions_from rt req w t t'); [done|done|by apply Hinv|..];
      intros reason message t0 Heq;
      apply setters_single_verdict; rewrite Heq; by apply Hinv.
  - by rewrite (pass_keeps_no_resource rt req w Hs) in Ht'.
Qed.

Lemma reachable_single_verdict (w : World) :
  reachable w ->
  forall t, stored w = Some t -> single_verdict (Conditions (Status t)).
Proof.
  induction 1 as [w Hnil|rt req w Hr IH|w w' Hr IH Hsame]; intros t Ht.
  - rewrite (Hnil t Ht). by left.
  - by apply (pass_single_verdict rt req w IH).
  - destruct (Hsame t Ht) as [->|(t0 & Ht0 & ->)]; [by left|by apply IH].
Qed.

(** X24.  The stored conditions are a single verdict: if before a pass
    they are empty or one condition, Available or Degraded, with status
    True, they are so after it; hence, for a resource created without
    conditions, the store never holds two conditions, nor one with status
    False or Unknown, whatever the sequence of passes. *)
Theorem conditions_single_verdict (rt : Runtime) (req : string) (w : World) :
  let w' := snd (Reconcile rt req w) in
  ((forall t, stored w = Some t -> single_verdict (Conditions (Status t))) ->
   forall t', stored w' = Some t' -> single_verdict (Conditions (Status t')))
  /\ (reachable w ->
      forall t', stored w' = Some t' -> single_verdict (Conditions (Status t'))).
Proof.
  cbv zeta. split; [apply pass_single_verdict|].
  intros Hr. apply pass_single_verdict. by apply reachable_single_verdict.
Qed.

(** X26.  A pass adds or removes its own token and nothing else: every
    other finalizer of the stored resource is there after the pass exactly
    when it was there before. *)
Theorem foreign_finalizers_untouched (rt : Runtime) (req : string)
    (w : World) (t t' : Torrent) (f : string) :
  stored w = Some t ->
  stored (snd (Reconcile rt req w)) = Some t' ->
  f <> TorrentFinalizer ->
  f ∈ GetFinalizers t' <-> f ∈ GetFinalizers t.
Proof.
  intros Hs Hs' Hne.
  destruct (pass_finalizers rt req w t t' Hs Hs')
    as [->|[(_ & _ & ->)|(_ & _ & ->)]]; [done| |].
  - rewrite elem_of_app, list_elem_of_singleton. tauto.
  - rewrite remove_elem_of. tauto.
Qed.


End Sequences.

(** ** The further properties at concrete inputs *)

Section MoreConcrete.

Import http qbittorrent metav1 v1alpha1 controller props examples wire cases.

(** *** Client *)

Lemma Login_first_SID_cookie_witness :
  let r := Login (answering 200 "200 OK" (Cookies welcome) []) "admin" "secret"
             (conn "") in
  self (snd r) = {| baseURL := "http://qbt:8080"; sessionID := "s3cr3t" |}
  /\ fst r = None.
Proof.
  assert (Hmin : forall j c', (j < 1)%nat -> Cookies welcome !! j = Some c' ->
                              http.Name c' <> "SID").
  { intros [|j] c' Hj Hl; [|lia]. injection Hl as <-. discriminate. }
  destruct (Login_first_SID_cookie
              (answering 200 "200 OK" (Cookies welcome) []) "admin" "secret"
              (conn "") welcome 1 {| http.Name := "SID"; Value := "s3cr3t" |}
              eq_refl eq_refl eq_refl eq_refl eq_refl Hmin) as (H1 & H2 & _).
  split; [exact H1|]. apply H2. discriminate.
Defined.

Lemma Login_failure_keeps_session_witness :
  let r := Login (answering 403 "403 Forbidden" [] []) "admin" "secret"
             (conn "OLD") in
  fst r <> None /\ self (snd r) = self (conn "OLD").
Proof.
  apply (Login_failure_keeps_session
           (answering 403 "403 Forbidden" [] []) "admin" "secret" (conn "OLD")).
  intros resp Hr. injection Hr as <-. discriminate.
Defined.

Lemma Login_fresh_client_needs_cookie_witness :
  let r := Login (answering 200 "200 OK"
                    [{| http.Name := "lang"; Value := "en" |};
                     {| http.Name := "SID"; Value := "abc" |}] [])
             "admin" "secret" (conn "") in
  fst r = None
  /\ exists c, http.Name c = "SID" /\ sessionID (self (snd r)) = Value c.
Proof.
  cbv zeta.
  destruct (Login_fresh_client_needs_cookie
              (answering 200 "200 OK"
                 [{| http.Name := "lang"; Value := "en" |};
                  {| http.Name := "SID"; Value := "abc" |}] [])
              "admin" "secret" (conn "")
              {| http.StatusCode := 200; http.Status := "200 OK";
                 http.Cookies := [{| http.Name := "lang"; Value := "en" |};
                                  {| http.Name := "SID"; Value := "abc" |}];
                 http.RespBody := "" |})
    as (Hiff & Hsome & _); try reflexivity.
  assert (Hnil : fst (Login (answering 200 "200 OK"
                    [{| http.Name := "lang"; Value := "en" |};
                     {| http.Name := "SID"; Value := "abc" |}] [])
             "admin" "secret" (conn "")) = None).
  { apply Hiff. vm_compute. discriminate. }
  split; [exact Hnil|].
  destruct (Hsome Hnil) as (c & _ & Hn & _ & Hv). by exists c.
Defined.

Lemma GetTorrentHash_slices_in_range_witness :
  strings.slice_in_range "magnet:?xt=urn:btih:ABC123&dn=test" 20 34
  /\ strings.slice_in_range "magnet:?xt=urn:btih:ABC123&dn=test" 20 26.
Proof.
  destruct (GetTorrentHash_slices_in_range "magnet:?xt=urn:btih:ABC123&dn=test")
    as (_ & H1 & H2).
  - vm_compute. reflexivity.
  - split; [exact H1|]. apply H2. vm_compute. discriminate.
Defined.

(** *** Controller *)

Lemma Reconcile_keeps_spec_and_identity_witness :
  Spec (available (online [uploading]) "TorrentActive"
          "Torrent is active on qBittorrent"
          (with_Status (synced (Status settled) uploading) settled))
  = Spec settled.
Proof.
  apply (Reconcile_keeps_spec_and_identity (online [uploading]) "t1"
           (world settled) settled
           (available (online [uploading]) "TorrentActive"
              "Torrent is active on qBittorrent"
              (with_Status (synced (Status settled) uploading) settled)));
    reflexivity.
Defined.

Lemma observed_fields_change_only_on_sync_witness :
  ~ marked settled /\ has_finalizer settled
  /\ exists hash r0,
      GetTorrentHash (MagnetURI (Spec settled)) = (hash, None)
      /\ fst (GetTorrentInfo (remote (online [uploading])) hash
                (qbt (world settled))) = (Some r0, None)
      /\ ~ fields_match (Status settled) r0
      /\ fields_match
           (Status (available (online [uploading]) "TorrentActive"
                      "Torrent is active on qBittorrent"
                      (with_Status (synced (Status settled) uploading) settled)))
           r0.
Proof.
  apply (observed_fields_change_only_on_sync (online [uploading]) "t1"
           (world settled) settled
           (available (online [uploading]) "TorrentActive"
              "Torrent is active on qBittorrent"
              (with_Status (synced (Status settled) uploading) settled)));
    [reflexivity|reflexivity|].
  vm_compute. discriminate.
Defined.

Lemma Reconcile_nothing_fetched_witness :
  let r := Reconcile (online []) "t1" vacant in
  qbt (snd r) = qbt vacant /\ stored (snd r) = None
  /\ nwrites (snd r) = 0%nat /\ fst r = (Result0, None).
Proof.
  apply (Reconcile_nothing_fetched (online []) "t1" vacant). by right.
Defined.

Lemma Reconcile_malformed_uri_witness :
  let r := Reconcile (online []) "t2" (world garbled) in
  fst r = (Result0, Some (errorString "'btih:' not found"))
  /\ qbt (snd r) = qbt (world garbled) /\ stored (snd r) = Some garbled
  /\ nwrites (snd r) = 0%nat /\ obj (snd r) = garbled.
Proof.
  assert (Hm : ~ marked garbled) by discriminate.
  assert (Hf : has_finalizer garbled) by left.
  exact (Reconcile_malformed_uri (online []) "t2" (world garbled) garbled ""
           (errorString "'btih:' not found") eq_refl eq_refl Hm Hf eq_refl).
Defined.

Lemma deletion_sends_one_delete_witness :
  sent (qbt (snd (Reconcile offline "t1" (world doomed))))
  = [] ++ [delete_request (self (conn "SID0")) "ABC123" true].
Proof.
  exact (deletion_sends_one_delete offline "t1" (world doomed) doomed
           eq_refl eq_refl eq_refl).
Defined.


Lemma sync_found_outcome_witness :
  fst (Reconcile (online [uploading]) "t1" (world settled))
  = (After (30 * Second), None).
Proof.
  assert (Hm : ~ marked settled) by discriminate.
  assert (Hf : has_finalizer settled) by left.
  exact (proj1 (sync_found_outcome (online [uploading]) "t1" (world settled)
                  settled "ABC123" uploading eq_refl eq_refl Hm Hf eq_refl
                  eq_refl (fun _ _ => eq_refl))).
Defined.

Lemma sync_added_outcome_witness :
  let p := Reconcile (online []) "t1" (world created) in
  fst p = (After (5 * Second), None)
  /\ observed (Status (obj (snd p))) = observed (Status created).
Proof.
  assert (Hm : ~ marked created) by discriminate.
  assert (Hf : has_finalizer created) by left.
  destruct (sync_added_outcome (online []) "t1" (world created) created
              "ABC123" eq_refl eq_refl Hm Hf eq_refl eq_refl eq_refl)
    as (H1 & H2 & _).
  split; assumption.
Defined.

Lemma sync_remote_failure_witness :
  let p := Reconcile offline "t1" (world created) in
  fst p = (After (10 * Second), None)
  /\ exists c, meta.FindStatusCondition (Conditions (Status (obj (snd p))))
                 TypeDegradedTorrent = Some c
               /\ metav1.Status c = ConditionTrue
               /\ Reason c = "FailedToGetTorrentInfo"
               /\ Message c
                  = "failed to get torrents info list: failed to get torrents info list: connection refused".
Proof.
  assert (Hm : ~ marked created) by discriminate.
  assert (Hf : has_finalizer created) by left.
  destruct (sync_remote_failure offline "t1" (world created) created
              "ABC123" "FailedToGetTorrentInfo"
              (wrapError "failed to get torrents info list: "
                 (wrapError "failed to get torrents info list: "
                    (errorString "connection refused")))
              eq_refl eq_refl Hm Hf eq_refl (or_introl (conj eq_refl eq_refl)))
    as (H1 & H2 & _).
  split; assumption.
Defined.


Lemma setAvailableCondition_keeps_transition_time_witness :
  exists c',
    meta.FindStatusCondition
      (Conditions (Status (obj (snd
         (setAvailableCondition (online []) "TorrentActive"
            "Torrent is active on qBittorrent" added_earlier)))))
      TypeAvailableTorrent = Some c'
    /\ LastTransitionTime c' = 900
    /\ metav1.Status c' = ConditionTrue
    /\ Reason c' = "TorrentActive"
    /\ Message c' = "Torrent is active on qBittorrent".
Proof.
  exact (setAvailableCondition_keeps_transition_time (online [])
           "TorrentActive" "Torrent is active on qBittorrent" added_earlier
           {| Type_ := "Available"; metav1.Status := ConditionTrue;
              ObservedGeneration := 0; LastTransitionTime := 900;
              Reason := "TorrentAdded";
              Message := "Torrent added to qBittorrent" |}
           eq_refl eq_refl).
Defined.


Lemma foreign_finalizers_untouched_witness :
  "other.io/guard"
  ∈ GetFinalizers (controllerutil.RemoveFinalizer guarded TorrentFinalizer).
Proof.
  apply (proj2 (foreign_finalizers_untouched (online []) "t1" (world guarded)
                  guarded
                  (controllerutil.RemoveFinalizer guarded TorrentFinalizer)
                  "other.io/guard" eq_refl eq_refl
                  ltac:(discriminate))).
  left.
Defined.

End MoreConcrete.
